(** * pyRevit loader: repository discovery, divergence check and update

    A shallow embedding of [loader/Lib/pyRevit/loader/updater.py].

    The module is glue around LibGit2Sharp (imported as [git]), the
    package parser, the user settings and the logger.  Those collaborators
    are kept abstract in a [Platform] record; the Python functions of the
    module are written over it in a state-and-exception monad whose state
    is the outside world together with the log records emitted so far. *)

From Stdlib Require Import List String Ascii ZArith Bool Lia DecimalString.
Import ListNotations.
Open Scope string_scope.
Open Scope list_scope.

(** ** Python and .NET values *)

Definition path := string.

(** The exceptions that can reach an [except Exception] clause of the
    module: Python's own [AttributeError] (attribute access on [None]) and
    whatever the .NET side throws. *)
Inductive PyException : Type :=
| AttributeError (message : string)
| DotNetException (message : string).

(** [str(err)] *)
Definition str_exc (err : PyException) : string :=
  match err with
  | AttributeError m => m
  | DotNetException m => m
  end.

(** [s.replace('\n', '')] *)
Fixpoint remove_newlines (s : string) : string :=
  match s with
  | EmptyString => EmptyString
  | String c rest =>
      if Ascii.eqb c "010"%char then remove_newlines rest
      else String c (remove_newlines rest)
  end.

(** A commit as the module reads it: [commit.Id.Sha] and [commit.Message]. *)
Record Commit : Type := { Sha : string; Message : string }.

(** A LibGit2Sharp branch.  [Tip] and [TrackedBranch] are [null] ([None])
    when the reference has no target or no upstream is configured. *)
#[warnings="-register-all"]
Inductive Branch : Type := Build_Branch {
  CanonicalName : string;
  IsRemote : bool;
  Tip : option Commit;
  TrackedBranch : option Branch
}.

Record Remote : Type := { Name : string; Url : string }.

Record HistoryDivergence : Type := { AheadBy : Z; BehindBy : Z }.

Record UsernamePasswordCredentials : Type :=
  { Username : string; Password : string }.

Inductive SupportedCredentialTypes : Type :=
| CredUsernamePassword
| CredDefault.

(** [git.Handlers.CredentialsHandler]: a delegate from url, user name taken
    from the url, and the credential types the server accepts. *)
Definition CredentialsHandler : Type :=
  string -> string -> SupportedCredentialTypes -> UsernamePasswordCredentials.

Record FetchOptions : Type :=
  { CredentialsProvider : option CredentialsHandler }.

Record PullOptions : Type :=
  { PullOptions_FetchOptions : option FetchOptions }.

(** [git.FetchOptions()] and [git.PullOptions()] before any property is set. *)
Definition FetchOptions_new : FetchOptions := {| CredentialsProvider := None |}.
Definition PullOptions_new : PullOptions := {| PullOptions_FetchOptions := None |}.

Record Signature : Type :=
  { sig_name : string; sig_email : string; sig_when : Z }.

(** ** Credentials (lines 23-44) *)

Definition hndlr (url uname : string) (types : SupportedCredentialTypes)
  : UsernamePasswordCredentials :=
  let up := {| Username := ""; Password := "" |} in
  let up := {| Username := "eirannejad@gmail.com"; Password := Password up |} in
  let up := {| Username := Username up; Password := "ehsan2010" |} in
  up.

Definition _make_pull_options : PullOptions :=
  let pull_ops := PullOptions_new in
  let pull_ops := {| PullOptions_FetchOptions := Some FetchOptions_new |} in
  let pull_ops :=
    {| PullOptions_FetchOptions := Some {| CredentialsProvider := Some hndlr |} |} in
  pull_ops.

Definition _make_fetch_options : FetchOptions :=
  let fetch_ops := FetchOptions_new in
  let fetch_ops := {| CredentialsProvider := Some hndlr |} in
  fetch_ops.

(** [DateTimeOffset(DateTime.Now)] is passed in as [now]. *)
Definition _make_pull_signature (now : Z) : Signature :=
  {| sig_name := "eirannejad"; sig_email := "eirannejad@gmail.com"; sig_when := now |}.

(** ** The collaborators *)

(** Everything the module imports.  [World] is the state of the machine
    (file system, remotes, clock); reads take it, [Network_Fetch] and
    [Network_Pull] also return the world they leave behind, together with
    the exception they threw, if any. *)
Record Platform : Type := {
  World : Type;
  Repository : Type;
  (** the parser's package descriptor; the module only reads [.directory] *)
  PkgInfo : Type;
  pkg_directory : PkgInfo -> path;
  (** [config.HOME_DIR] *)
  HOME_DIR : path;
  (** [user_settings.get_package_root_dirs()] *)
  get_package_root_dirs : World -> list path;
  (** [parser.get_installed_package_data(root_dir)]; an entry may be [None] *)
  get_installed_package_data : path -> World -> list (option PkgInfo);
  (** [git.Repository(path)] *)
  Repository_open : path -> World -> PyException + Repository;
  (** [git.Repository.IsValid(path)] *)
  Repository_IsValid : path -> World -> bool;
  (** [repo.Info.WorkingDirectory], [repo.Head.Name], [repo.Head.Tip] *)
  Info_WorkingDirectory : Repository -> World -> path;
  Head_Name : Repository -> World -> string;
  Head_Tip : Repository -> World -> option Commit;
  (** enumerating [repo.Branches] and [repo.Network.Remotes] *)
  Branches : Repository -> World -> list Branch;
  Network_Remotes : Repository -> World -> list Remote;
  Network_Fetch :
    Repository -> Remote -> FetchOptions -> World -> option PyException * World;
  Network_Pull :
    Repository -> Signature -> PullOptions -> World -> option PyException * World;
  (** [repo.ObjectDatabase.CalculateHistoryDivergence(one, another)] *)
  CalculateHistoryDivergence :
    Repository -> option Commit -> option Commit -> World ->
    PyException + HistoryDivergence;
  (** [DateTime.Now] *)
  DateTime_Now : World -> Z
}.

Inductive Level : Type := DEBUG | ERROR.

Section Updater.

Variable P : Platform.

Local Abbreviation World := (World P).
Local Abbreviation Repository := (Repository P).
Local Abbreviation PkgInfo := (PkgInfo P).

(** [PyRevitRepoInfo = namedtuple(...)] (line 18) *)
Record PyRevitRepoInfo : Type := {
  directory : path;
  head_name : string;
  last_commit_hash : string;
  repo : Repository
}.

(** One constructor per [logger] call of the module, carrying the values
    that are formatted into the message. *)
Inductive LogMessage : Type :=
| Msg_finding_installed_repos
| Msg_valid_thirdparty_packages (pkgs : list (option PkgInfo))
| Msg_can_not_create_repo (dir : path)
| Msg_updating_repo (dir : path)
| Msg_current_head (sha head_msg : string)
| Msg_successfully_updated (dir : path)
| Msg_new_head (sha head_msg : string)
| Msg_failed_updating (dir : path) (pull_err : PyException)
| Msg_fetching_updates (dir : path)
| Msg_repo_branches (branches : list Branch)
| Msg_fetching_remote (remote_name : string) (dir : path)
| Msg_failed_fetching (dir : path) (fetch_err : string)
| Msg_comparing_heads (branch tracked : string)
| Msg_can_not_compare (branch : Branch) (repo : Repository) (compare_err : string).

Record LogRecord : Type := { levelname : Level; msg : LogMessage }.

Record State : Type := { world : World; records : list LogRecord }.

(** ** The monad: state, plus an exception in flight *)

Definition M (A : Type) : Type := State -> (PyException + A) * State.

Definition ret {A} (a : A) : M A := fun s => (inr a, s).

Definition bind {A B} (m : M A) (k : A -> M B) : M B :=
  fun s =>
    match m s with
    | (inr a, s') => k a s'
    | (inl e, s') => (inl e, s')
    end.

Definition raise {A} (e : PyException) : M A := fun s => (inl e, s).

(** [try: body / except Exception as err: handler err] *)
Definition try_except {A} (body : M A) (handler : PyException -> M A) : M A :=
  fun s =>
    match body s with
    | (inl e, s') => handler e s'
    | r => r
    end.

Definition get_world : M World := fun s => (inr (world s), s).

(** An operation of the backend that may throw and may change the world. *)
Definition call (op : World -> option PyException * World) : M unit :=
  fun s =>
    let '(r, w') := op (world s) in
    let s' := {| world := w'; records := records s |} in
    match r with
    | Some e => (inl e, s')
    | None => (inr tt, s')
    end.

(** An operation of the backend that only reads, and may throw. *)
Definition read {A} (op : World -> PyException + A) : M A :=
  fun s => (op (world s), s).

Definition emit (lvl : Level) (m : LogMessage) : M unit :=
  fun s =>
    (inr tt,
     {| world := world s;
        records := records s ++ [{| levelname := lvl; msg := m |}] |}).

Definition logger_debug : LogMessage -> M unit := emit DEBUG.
Definition logger_error : LogMessage -> M unit := emit ERROR.

Notation "x <- m ;; k" := (bind m (fun x => k))
  (at level 61, m at next level, right associativity).
Notation "m ;; k" := (bind m (fun _ => k))
  (at level 61, right associativity).

(** [for x in xs: acc = body x acc] for a loop that rebinds or appends to
    a local variable. *)
Fixpoint for_in {A Acc} (xs : list A) (body : A -> Acc -> M Acc) (acc : Acc)
  : M Acc :=
  match xs with
  | [] => ret acc
  | x :: rest => acc' <- body x acc ;; for_in rest body acc'
  end.

(** [for x in xs: body x] for a loop whose body may [return]: the body
    answers [Some v] to return [v] from the enclosing function and [None]
    to go on with the next element. *)
Fixpoint for_in_return {A R} (xs : list A) (body : A -> M (option R))
  : M (option R) :=
  match xs with
  | [] => ret None
  | x :: rest =>
      r <- body x ;;
      match r with
      | Some v => ret (Some v)
      | None => for_in_return rest body
      end
  end.

(** Attribute access on a value that may be [None]. *)
Definition getattr {A B} (attr : string) (proj : A -> B) (o : option A) : M B :=
  match o with
  | Some a => ret (proj a)
  | None =>
      raise (AttributeError
               ("'NoneType' object has no attribute '" ++ attr ++ "'")%string)
  end.

(** Python truth value of an object that may be [None]. *)
Definition truthy {A} (o : option A) : bool :=
  match o with Some _ => true | None => false end.

(** ** Discovery (lines 47-83) *)

(** The two statements that both discovery functions run inside their
    [try]: open the repository and take the snapshot. *)
Definition open_repo_info (dir : path) : M PyRevitRepoInfo :=
  repo <- read (Repository_open P dir) ;;
  w <- get_world ;;
  sha <- getattr "Id" Sha (Head_Tip P repo w) ;;
  ret {| directory := Info_WorkingDirectory P repo w;
         head_name := Head_Name P repo w;
         last_commit_hash := sha;
         repo := repo |}.

(** The function has no [return] on the [except] path: it answers [None]. *)
Definition get_pyrevit_repo : M (option PyRevitRepoInfo) :=
  try_except
    (repo_info <- open_repo_info (HOME_DIR P) ;; ret (Some repo_info))
    (fun err =>
       logger_error (Msg_can_not_create_repo (HOME_DIR P)) ;;
       ret None).

(** The condition of line 63, with the short circuit of [and]. *)
Definition is_valid_pkg (pkg_info : option PkgInfo) : M bool :=
  if truthy pkg_info then
    dir <- getattr "directory" (pkg_directory P) pkg_info ;;
    w <- get_world ;;
    ret (Repository_IsValid P dir w)
  else ret false.

Definition get_thirdparty_pkg_repos : M (list PyRevitRepoInfo) :=
  let pkgs := [] in
  logger_debug Msg_finding_installed_repos ;;
  w <- get_world ;;
  pkgs <- for_in (get_package_root_dirs P w)
            (fun root_dir pkgs =>
               w <- get_world ;;
               let pkg_info_list := get_installed_package_data P root_dir w in
               for_in pkg_info_list
                 (fun pkg_info pkgs =>
                    ok <- is_valid_pkg pkg_info ;;
                    if ok then ret (pkgs ++ [pkg_info]) else ret pkgs)
                 pkgs)
            pkgs ;;
  logger_debug (Msg_valid_thirdparty_packages pkgs) ;;
  let repos := [] in
  for_in pkgs
    (fun pkg_info repos =>
       try_except
         (dir <- getattr "directory" (pkg_directory P) pkg_info ;;
          repo_info <- open_repo_info dir ;;
          ret (repos ++ [repo_info]))
         (fun err =>
            dir <- getattr "directory" (pkg_directory P) pkg_info ;;
            logger_error (Msg_can_not_create_repo dir) ;;
            ret repos))
    repos.

Definition get_all_available_repos : M (list (option PyRevitRepoInfo)) :=
  home <- get_pyrevit_repo ;;
  let repo_info_list := [home] in
  thirdparty <- get_thirdparty_pkg_repos ;;
  ret (repo_info_list ++ map Some thirdparty).

(** ** Update (lines 86-102) *)

Definition update_pyrevit (repo_info : PyRevitRepoInfo) : M bool :=
  let repo := repo repo_info in
  logger_debug (Msg_updating_repo (directory repo_info)) ;;
  w <- get_world ;;
  message <- getattr "Message" Message (Head_Tip P repo w) ;;
  let head_msg := remove_newlines message in
  sha <- getattr "Id" Sha (Head_Tip P repo w) ;;
  logger_debug (Msg_current_head sha head_msg) ;;
  returned <-
    try_except
      (w <- get_world ;;
       call (Network_Pull P repo (_make_pull_signature (DateTime_Now P w))
               _make_pull_options) ;;
       logger_debug (Msg_successfully_updated (directory repo_info)) ;;
       w <- get_world ;;
       message <- getattr "Message" Message (Head_Tip P repo w) ;;
       let head_msg := remove_newlines message in
       sha <- getattr "Id" Sha (Head_Tip P repo w) ;;
       logger_debug (Msg_new_head sha head_msg) ;;
       ret (Some true))
      (fun pull_err =>
         logger_error (Msg_failed_updating (directory repo_info) pull_err) ;;
         ret None) ;;
  match returned with
  | Some b => ret b
  | None => ret false
  end.

(** ** Divergence check (lines 105-132) *)

(** The body of the [for branch in repo_branches] loop. *)
Definition compare_branch (repo_info : PyRevitRepoInfo) (branch : Branch)
  : M (option bool) :=
  let repo := repo repo_info in
  if negb (IsRemote branch) then
    try_except
      (if truthy (TrackedBranch branch) then
         tracked_name <- getattr "CanonicalName" CanonicalName (TrackedBranch branch) ;;
         logger_debug (Msg_comparing_heads (CanonicalName branch) tracked_name) ;;
         tracked_tip <- getattr "Tip" Tip (TrackedBranch branch) ;;
         hist_div <- read (CalculateHistoryDivergence P repo (Tip branch) tracked_tip) ;;
         if (BehindBy hist_div >? 0)%Z then ret (Some true) else ret None
       else ret None)
      (fun compare_err =>
         logger_error
           (Msg_can_not_compare branch repo (remove_newlines (str_exc compare_err))) ;;
         ret None)
  else ret None.

Definition has_pending_updates (repo_info : PyRevitRepoInfo) : M bool :=
  let repo := repo repo_info in
  logger_debug (Msg_fetching_updates (directory repo_info)) ;;
  (* [repo.Branches] is a live collection: each iteration over it lists
     the branches of the repository as it is then *)
  w <- get_world ;;
  logger_debug (Msg_repo_branches (Branches P repo w)) ;;
  w <- get_world ;;
  for_in (Network_Remotes P repo w)
    (fun remote (_ : unit) =>
       logger_debug (Msg_fetching_remote (Name remote) (directory repo_info)) ;;
       try_except
         (call (Network_Fetch P repo remote _make_fetch_options))
         (fun fetch_err =>
            logger_error
              (Msg_failed_fetching (directory repo_info)
                 (remove_newlines (str_exc fetch_err)))))
    tt ;;
  w <- get_world ;;
  returned <- for_in_return (Branches P repo w) (compare_branch repo_info) ;;
  match returned with
  | Some b => ret b
  | None => ret false
  end.

(** ** What the functions compute, as plain functions of the world *)

Definition dbg (m : LogMessage) : LogRecord := {| levelname := DEBUG; msg := m |}.
Definition err (m : LogMessage) : LogRecord := {| levelname := ERROR; msg := m |}.

Definition logged (s : State) (new : list LogRecord) : State :=
  {| world := world s; records := records s ++ new |}.

(** The outcome of the two statements of [open_repo_info] in world [w]. *)
Definition snapshot (dir : path) (w : World) : PyException + PyRevitRepoInfo :=
  match Repository_open P dir w with
  | inl e => inl e
  | inr r =>
      match Head_Tip P r w with
      | None => inl (AttributeError "'NoneType' object has no attribute 'Id'")
      | Some c =>
          inr {| directory := Info_WorkingDirectory P r w;
                 head_name := Head_Name P r w;
                 last_commit_hash := Sha c;
                 repo := r |}
      end
  end.

(** Every descriptor the package locator reports, in the order found. *)
Definition located (w : World) : list (option PkgInfo) :=
  flat_map (fun root_dir => get_installed_package_data P root_dir w)
    (get_package_root_dirs P w).

Definition passes_probe (w : World) (pkg_info : option PkgInfo) : bool :=
  match pkg_info with
  | Some p => Repository_IsValid P (pkg_directory P p) w
  | None => false
  end.

Definition valid_pkgs (w : World) : list (option PkgInfo) :=
  filter (passes_probe w) (located w).

Definition opened_of (w : World) (pkg_info : option PkgInfo)
  : list PyRevitRepoInfo :=
  match pkg_info with
  | Some p =>
      match snapshot (pkg_directory P p) w with
      | inr h => [h]
      | inl _ => []
      end
  | None => []
  end.

Definition open_error_of (w : World) (pkg_info : option PkgInfo)
  : list LogRecord :=
  match pkg_info with
  | Some p =>
      match snapshot (pkg_directory P p) w with
      | inr _ => []
      | inl _ => [err (Msg_can_not_create_repo (pkg_directory P p))]
      end
  | None => []
  end.

(** Is [r] the error record of a failed open of directory [D]? *)
Definition is_open_error (D : path) (r : LogRecord) : bool :=
  match levelname r, msg r with
  | ERROR, Msg_can_not_create_repo dir => String.eqb dir D
  | _, _ => false
  end.

(** Does the descriptor name directory [D]? *)
Definition names_dir (D : path) (pkg_info : option PkgInfo) : bool :=
  match pkg_info with
  | Some p => String.eqb (pkg_directory P p) D
  | None => false
  end.

Definition count {A} (f : A -> bool) (l : list A) : nat :=
  List.length (filter f l).

(** The world after [Network_Fetch] has been called on each remote in turn,
    whatever each call answered. *)
Fixpoint fetch_all (r : Repository) (remotes : list Remote) (w : World) : World :=
  match remotes with
  | [] => w
  | remote :: rest =>
      fetch_all r rest (snd (Network_Fetch P r remote _make_fetch_options w))
  end.

Definition fetch_records_of (repo_info : PyRevitRepoInfo) (remote : Remote)
    (w : World) : list LogRecord :=
  dbg (Msg_fetching_remote (Name remote) (directory repo_info)) ::
  match fst (Network_Fetch P (repo repo_info) remote _make_fetch_options w) with
  | Some fetch_err =>
      [err (Msg_failed_fetching (directory repo_info)
              (remove_newlines (str_exc fetch_err)))]
  | None => []
  end.

Fixpoint fetch_records (repo_info : PyRevitRepoInfo) (remotes : list Remote)
    (w : World) : list LogRecord :=
  match remotes with
  | [] => []
  | remote :: rest =>
      fetch_records_of repo_info remote w ++
      fetch_records repo_info rest
        (snd (Network_Fetch P (repo repo_info) remote _make_fetch_options w))
  end.

(** The divergence computed for a branch: none for a remote-tracking
    branch or a branch without upstream. *)
Definition divergence_of (r : Repository) (w : World) (branch : Branch)
  : option (PyException + HistoryDivergence) :=
  if IsRemote branch then None
  else
    match TrackedBranch branch with
    | None => None
    | Some tracked =>
        Some (CalculateHistoryDivergence P r (Tip branch) (Tip tracked) w)
    end.

(** The branch is found behind its upstream. *)
Definition behind (r : Repository) (w : World) (branch : Branch) : bool :=
  match divergence_of r w branch with
  | Some (inr hist_div) => (BehindBy hist_div >? 0)%Z
  | _ => false
  end.

Definition compare_records_of (r : Repository) (w : World) (branch : Branch)
  : list LogRecord :=
  if IsRemote branch then []
  else
    match TrackedBranch branch with
    | None => []
    | Some tracked =>
        dbg (Msg_comparing_heads (CanonicalName branch) (CanonicalName tracked)) ::
        match CalculateHistoryDivergence P r (Tip branch) (Tip tracked) w with
        | inl compare_err =>
            [err (Msg_can_not_compare branch r
                    (remove_newlines (str_exc compare_err)))]
        | inr _ => []
        end
    end.

(** The records of the comparison loop, which stops at the first branch
    found behind. *)
Fixpoint compare_records (r : Repository) (w : World) (branches : list Branch)
  : list LogRecord :=
  match branches with
  | [] => []
  | branch :: rest =>
      compare_records_of r w branch ++
      (if behind r w branch then [] else compare_records r w rest)
  end.

(** The exception of an attribute access on [None]. *)
Definition no_attribute (attr : string) : PyException :=
  AttributeError ("'NoneType' object has no attribute '" ++ attr ++ "'")%string.

End Updater.

Arguments directory {P} _.
Arguments head_name {P} _.
Arguments last_commit_hash {P} _.
Arguments repo {P} _.
Arguments Msg_finding_installed_repos {P}.
Arguments Msg_valid_thirdparty_packages {P} _.
Arguments Msg_can_not_create_repo {P} _.
Arguments Msg_updating_repo {P} _.
Arguments Msg_current_head {P} _ _.
Arguments Msg_successfully_updated {P} _.
Arguments Msg_new_head {P} _ _.
Arguments Msg_failed_updating {P} _ _.
Arguments Msg_fetching_updates {P} _.
Arguments Msg_repo_branches {P} _.
Arguments Msg_fetching_remote {P} _ _.
Arguments Msg_failed_fetching {P} _ _.
Arguments Msg_comparing_heads {P} _ _.
Arguments Msg_can_not_compare {P} _ _ _.
Arguments levelname {P} _.
Arguments msg {P} _.
Arguments world {P} _.
Arguments records {P} _.
Arguments ret {P A} _ _.
Arguments bind {P A B} _ _ _.
Arguments raise {P A} _ _.
Arguments try_except {P A} _ _ _.
Arguments get_world {P} _.
Arguments call {P} _ _.
Arguments read {P A} _ _.
Arguments emit {P} _ _ _.
Arguments logger_debug {P} _ _.
Arguments logger_error {P} _ _.
Arguments for_in {P A Acc} _ _ _.
Arguments for_in_return {P A R} _ _.
Arguments getattr {P A B} _ _ _.
Arguments open_repo_info {P} _.
Arguments get_pyrevit_repo {P}.
Arguments is_valid_pkg {P} _.
Arguments get_thirdparty_pkg_repos {P}.
Arguments get_all_available_repos {P}.
Arguments update_pyrevit {P} _.
Arguments compare_branch {P} _ _.
Arguments has_pending_updates {P} _.
Arguments dbg {P} _.
Arguments err {P} _.
Arguments logged {P} _ _.
Arguments snapshot {P} _ _.
Arguments located {P} _.
Arguments passes_probe {P} _ _.
Arguments valid_pkgs {P} _.
Arguments opened_of {P} _ _.
Arguments open_error_of {P} _ _.
Arguments is_open_error {P} _ _.
Arguments names_dir {P} _ _.
Arguments fetch_all {P} _ _ _.
Arguments fetch_records_of {P} _ _ _.
Arguments fetch_records {P} _ _ _.
Arguments divergence_of {P} _ _ _.
Arguments behind {P} _ _ _.
Arguments compare_records_of {P} _ _ _.
Arguments compare_records {P} _ _ _.

(** ** A small machine to run the module on

    One home repository [/repo/main] with two remotes, [backup] (always
    unreachable) and [origin]; three package directories under [/pkgs], of
    which [extA] is a repository, [extB] is an empty directory and [extC]
    looks like a repository but cannot be opened.  The package locator
    also reports a [None] entry. *)
Module Demo.

Record DemoWorld : Type := {
  home_ok : bool;
  main_tip : option Commit;
  origin_tip : option Commit;
  upstream_tip : Commit;
  accepted_password : string;
  clock : Z
}.

Definition c1 : Commit := {| Sha := "1111111"; Message := "first" |}.
Definition c2 : Commit := {| Sha := "2222222"; Message := "second
" |}.

Definition home : path := "/repo/main".
Definition extA : path := "/pkgs/extA".
Definition extB : path := "/pkgs/extB".
Definition extC : path := "/pkgs/extC".

Definition backup : Remote := {| Name := "backup"; Url := "https://backup.invalid/main.git" |}.
Definition origin : Remote := {| Name := "origin"; Url := "https://origin.invalid/main.git" |}.

Definition not_a_repository : PyException :=
  DotNetException "Path does not point at a valid Git repository or workdir.".

Definition authorised (provider : option CredentialsHandler) (url : string)
    (w : DemoWorld) : bool :=
  match provider with
  | Some handler =>
      String.eqb (Password (handler url "" CredUsernamePassword)) (accepted_password w)
  | None => false
  end.

Definition fetched (w : DemoWorld) : DemoWorld :=
  {| home_ok := home_ok w; main_tip := main_tip w;
     origin_tip := Some (upstream_tip w); upstream_tip := upstream_tip w;
     accepted_password := accepted_password w; clock := clock w |}.

Definition pulled (w : DemoWorld) : DemoWorld :=
  {| home_ok := home_ok w; main_tip := Some (upstream_tip w);
     origin_tip := Some (upstream_tip w); upstream_tip := upstream_tip w;
     accepted_password := accepted_password w; clock := clock w |}.

Definition origin_master (w : DemoWorld) : Branch :=
  {| CanonicalName := "refs/remotes/origin/master"; IsRemote := true;
     Tip := origin_tip w; TrackedBranch := None |}.

Definition origin_gone : Branch :=
  {| CanonicalName := "refs/remotes/origin/gone"; IsRemote := true;
     Tip := None; TrackedBranch := None |}.

Definition feature (w : DemoWorld) : Branch :=
  {| CanonicalName := "refs/heads/feature"; IsRemote := false;
     Tip := main_tip w; TrackedBranch := None |}.

Definition stale (w : DemoWorld) : Branch :=
  {| CanonicalName := "refs/heads/stale"; IsRemote := false;
     Tip := main_tip w; TrackedBranch := Some origin_gone |}.

Definition master (w : DemoWorld) : Branch :=
  {| CanonicalName := "refs/heads/master"; IsRemote := false;
     Tip := main_tip w; TrackedBranch := Some (origin_master w) |}.

Definition platform : Platform := {|
  World := DemoWorld;
  Repository := path;
  PkgInfo := path;
  pkg_directory := fun p => p;
  HOME_DIR := home;
  get_package_root_dirs := fun _ => ["/pkgs"];
  get_installed_package_data := fun root_dir _ =>
    if String.eqb root_dir "/pkgs" then [Some extA; None; Some extB; Some extC]
    else [];
  Repository_open := fun dir w =>
    if String.eqb dir home then
      if home_ok w then inr dir else inl not_a_repository
    else if String.eqb dir extA then inr dir
    else inl not_a_repository;
  Repository_IsValid := fun dir _ =>
    String.eqb dir home || String.eqb dir extA || String.eqb dir extC;
  Info_WorkingDirectory := fun r _ => (r ++ "/")%string;
  Head_Name := fun _ _ => "master";
  Head_Tip := fun r w => if String.eqb r home then main_tip w else Some c1;
  Branches := fun r w =>
    if String.eqb r home then [origin_master w; feature w; stale w; master w]
    else [];
  Network_Remotes := fun r _ => if String.eqb r home then [backup; origin] else [];
  Network_Fetch := fun _ remote opts w =>
    if String.eqb (Name remote) "origin" then
      if authorised (CredentialsProvider opts) (Url remote) w
      then (None, fetched w)
      else (Some (DotNetException "authentication rejected"), w)
    else (Some (DotNetException "failed to resolve address
"), w);
  Network_Pull := fun _ _ opts w =>
    if authorised
         (match PullOptions_FetchOptions opts with
          | Some fetch_ops => CredentialsProvider fetch_ops
          | None => None
          end) (Url origin) w
    then (None, pulled w)
    else (Some (DotNetException "authentication rejected"), w);
  CalculateHistoryDivergence := fun _ one another _ =>
    match one, another with
    | Some a, Some b =>
        inr {| AheadBy := 0;
               BehindBy := if String.eqb (Sha a) (Sha b) then 0 else 1 |}
    | _, _ => inl (DotNetException "Value cannot be null.
Parameter name: another")
    end;
  DateTime_Now := clock
|}.

(** The home repository is one commit behind [origin], whose server
    accepts the credentials the module sends. *)
Definition w0 : DemoWorld :=
  {| home_ok := true; main_tip := Some c1; origin_tip := Some c1;
     upstream_tip := c2;
     accepted_password := Password (hndlr "" "" CredDefault);
     clock := 0 |}.

(** The same, but the server accepts another password. *)
Definition w_rejecting : DemoWorld :=
  {| home_ok := true; main_tip := Some c1; origin_tip := Some c1;
     upstream_tip := c2; accepted_password := "rotated"; clock := 0 |}.

(** The home directory is not a repository. *)
Definition w_no_home : DemoWorld :=
  {| home_ok := false; main_tip := None; origin_tip := None;
     upstream_tip := c2;
     accepted_password := Password (hndlr "" "" CredDefault);
     clock := 0 |}.

(** The home repository has no commit yet: its head is unborn. *)
Definition w_unborn : DemoWorld :=
  {| home_ok := true; main_tip := None; origin_tip := None;
     upstream_tip := c2;
     accepted_password := Password (hndlr "" "" CredDefault);
     clock := 0 |}.

Definition start (w : DemoWorld) : State platform :=
  Build_State platform w [].

Definition main_info : PyRevitRepoInfo platform :=
  Build_PyRevitRepoInfo platform "/repo/main/" "master" "1111111" home.

End Demo.

(** ** A variant of the small machine

    The home repository lists [master] before [stale], so the branch
    whose comparison would fail comes after the one that is behind. *)
Module Demo2.

Import Demo.

Definition platform : Platform := {|
  World := DemoWorld;
  Repository := path;
  PkgInfo := path;
  pkg_directory := pkg_directory Demo.platform;
  HOME_DIR := HOME_DIR Demo.platform;
  get_package_root_dirs := get_package_root_dirs Demo.platform;
  get_installed_package_data := get_installed_package_data Demo.platform;
  Repository_open := Repository_open Demo.platform;
  Repository_IsValid := Repository_IsValid Demo.platform;
  Info_WorkingDirectory := Info_WorkingDirectory Demo.platform;
  Head_Name := Head_Name Demo.platform;
  Head_Tip := Head_Tip Demo.platform;
  Branches := fun r w =>
    if String.eqb r home then [feature w; master w; stale w] else [];
  Network_Remotes := Network_Remotes Demo.platform;
  Network_Fetch := Network_Fetch Demo.platform;
  Network_Pull := Network_Pull Demo.platform;
  CalculateHistoryDivergence := CalculateHistoryDivergence Demo.platform;
  DateTime_Now := DateTime_Now Demo.platform
|}.

Definition start (w : DemoWorld) : State platform :=
  Build_State platform w [].

Definition main_info : PyRevitRepoInfo platform :=
  Build_PyRevitRepoInfo platform "/repo/main/" "master" "1111111" home.

End Demo2.

(** ** The small machine with a package root configured twice

    The user settings list [/pkgs] twice, so the package locator reports
    every package directory twice. *)
Module Demo3.

Import Demo.

Definition platform : Platform := {|
  World := DemoWorld;
  Repository := path;
  PkgInfo := path;
  pkg_directory := pkg_directory Demo.platform;
  HOME_DIR := HOME_DIR Demo.platform;
  get_package_root_dirs := fun _ => ["/pkgs"; "/pkgs"];
  get_installed_package_data := get_installed_package_data Demo.platform;
  Repository_open := Repository_open Demo.platform;
  Repository_IsValid := Repository_IsValid Demo.platform;
  Info_WorkingDirectory := Info_WorkingDirectory Demo.platform;
  Head_Name := Head_Name Demo.platform;
  Head_Tip := Head_Tip Demo.platform;
  Branches := Branches Demo.platform;
  Network_Remotes := Network_Remotes Demo.platform;
  Network_Fetch := Network_Fetch Demo.platform;
  Network_Pull := Network_Pull Demo.platform;
  CalculateHistoryDivergence := CalculateHistoryDivergence Demo.platform;
  DateTime_Now := DateTime_Now Demo.platform
|}.

Definition start (w : DemoWorld) : State platform :=
  Build_State platform w [].

End Demo3.

(** * Config parsing

    A shallow embedding of [pyrevitlib/pyrevit/coreutils/configparser.py]:
    the two wrapper classes around Python's [ConfigParser.ConfigParser].
    The standard library object, the string methods, [ast.literal_eval]
    and the helpers of [coreutils] and [compat] are collaborators; the
    methods of the wrappers are written over them in a state-and-exception
    monad whose state is the one parser object that a
    [PyRevitConfigParser] and all its section objects share.  The methods
    that read and write the config file itself ([__init__],
    [get_config_file_hash], [reload], [save]) are left out. *)
Module Config.

Inductive CfgException : Type :=
| NoSectionError (message : string)
| NoOptionError (message : string)
| OtherException (message : string)
| AttributeError (message : string)
| IndexError (message : string)
| PyRevitException (message : string).

(** [str(err)] *)
Definition str_exc (e : CfgException) : string :=
  match e with
  | NoSectionError m | NoOptionError m | OtherException m
  | AttributeError m | IndexError m | PyRevitException m => m
  end.

Definition KEY_VALUE_TRUE : string := "true".
Definition KEY_VALUE_FALSE : string := "false".

(** What the module imports.  [Parser] is the state of a
    [ConfigParser.ConfigParser] object, [Value] a Python value. *)
Record Collaborators : Type := {
  Parser : Type;
  Value : Type;
  (** methods of [ConfigParser.ConfigParser] *)
  parser_sections : Parser -> list string;
  parser_has_section : string -> Parser -> bool;
  parser_add_section : string -> Parser -> option CfgException * Parser;
  parser_remove_section : string -> Parser -> bool * Parser;
  parser_options : string -> Parser -> CfgException + list string;
  parser_get : string -> string -> Parser -> CfgException + string;
  parser_set : string -> string -> string -> Parser -> option CfgException * Parser;
  parser_has_option : string -> string -> Parser -> bool;
  parser_remove_option :
    string -> string -> Parser -> (CfgException + bool) * Parser;
  (** [s.lower()], [s.isdecimal()], [int(s)] *)
  str_lower : string -> string;
  str_isdecimal : string -> bool;
  int_of_str : string -> CfgException + Z;
  (** [ast.literal_eval] on a string and on an [int] *)
  literal_eval_str : string -> CfgException + Value;
  literal_eval_int : Z -> CfgException + Value;
  (** a string and an [int] as Python values; [v is None] *)
  value_of_str : string -> Value;
  value_of_int : Z -> Value;
  value_is_None : Value -> bool;
  (** [compat.safe_strtype] *)
  safe_strtype : Value -> string;
  (** [coreutils.get_canonical_parts], [coreutils.make_canonical_name] *)
  get_canonical_parts : string -> list string;
  make_canonical_name : string -> string -> string
}.

Section Model.

Variable L : Collaborators.

(** The parser object, and the attributes that a section object has had
    rebound by [__setattr__] on one of its two own names. *)
Record State : Type := {
  parser : Parser L;
  own_attributes : list (string * Value L)
}.

Definition C (A : Type) : Type := State -> (CfgException + A) * State.

Definition ret {A} (a : A) : C A := fun st => (inr a, st).

Definition bind {A B} (m : C A) (k : A -> C B) : C B :=
  fun st =>
    match m st with
    | (inr a, st') => k a st'
    | (inl e, st') => (inl e, st')
    end.

Definition raise {A} (e : CfgException) : C A := fun st => (inl e, st).

Definition try_except {A} (body : C A) (handler : CfgException -> C A) : C A :=
  fun st =>
    match body st with
    | (inl e, st') => handler e st'
    | r => r
    end.

(** A method of the parser that only reads. *)
Definition ask {A} (f : Parser L -> A) : C A :=
  fun st => (inr (f (parser st)), st).

(** A method of the parser that reads and may raise. *)
Definition read {A} (f : Parser L -> CfgException + A) : C A :=
  fun st => (f (parser st), st).

(** A method of the parser that may change it and may raise. *)
Definition call (f : Parser L -> option CfgException * Parser L) : C unit :=
  fun st =>
    let '(r, p') := f (parser st) in
    let st' := {| parser := p'; own_attributes := own_attributes st |} in
    match r with
    | Some e => (inl e, st')
    | None => (inr tt, st')
    end.

(** A method of the parser that may change it and answers a value. *)
Definition call_value {A} (f : Parser L -> A * Parser L) : C A :=
  fun st =>
    let '(a, p') := f (parser st) in
    (inr a, {| parser := p'; own_attributes := own_attributes st |}).

(** A function of the standard library that may raise. *)
Definition lift {A} (r : CfgException + A) : C A := fun st => (r, st).

Notation "x <- m ;; k" := (bind m (fun x => k))
  (at level 61, m at next level, right associativity).
Notation "m ;; k" := (bind m (fun _ => k))
  (at level 61, right associativity).

Fixpoint for_in {A Acc} (xs : list A) (body : A -> Acc -> C Acc) (acc : Acc)
  : C Acc :=
  match xs with
  | [] => ret acc
  | x :: rest => acc' <- body x acc ;; for_in rest body acc'
  end.

Fixpoint for_in_return {A R} (xs : list A) (body : A -> C (option R))
  : C (option R) :=
  match xs with
  | [] => ret None
  | x :: rest =>
      r <- body x ;;
      match r with
      | Some v => ret (Some v)
      | None => for_in_return rest body
      end
  end.

(** [parts[0]] and [parts[-1]] *)
Definition index_first (parts : list string) : C string :=
  match parts with
  | [] => raise (IndexError "list index out of range")
  | x :: _ => ret x
  end.

Definition index_last (parts : list string) : C string :=
  match parts with
  | [] => raise (IndexError "list index out of range")
  | x :: rest => ret (last rest x)
  end.

(** ** [PyRevitConfigSectionParser] (lines 15-110)

    A section object holds the shared parser and its section name, so it
    is its section name. *)
Record SectionParser : Type := { _section_name : string }.

Definition Section__iter__ (self : SectionParser) : C (list string) :=
  read (parser_options L (_section_name self)).

Definition Section__str__ (self : SectionParser) : string :=
  _section_name self.

(** Lines 35-47: the value of [value] when the inner [try] is left. *)
Definition cleanup_value (value : string) : C (Value L) :=
  let value :=
    if String.eqb (str_lower L value) KEY_VALUE_TRUE then "True"
    else if String.eqb (str_lower L value) KEY_VALUE_FALSE then "False"
    else value in
  if str_isdecimal L value then
    try_except
      (n <- lift (int_of_str L value) ;;
       try_except
         (lift (literal_eval_int L n))
         (fun _ => ret (value_of_int L n)))
      (fun _ => ret (value_of_str L value))
  else
    try_except
      (lift (literal_eval_str L value))
      (fun _ => ret (value_of_str L value)).

Definition Section__getattr__ (self : SectionParser) (param_name : string)
  : C (Value L) :=
  try_except
    (value <- read (parser_get L (_section_name self) param_name) ;;
     cleanup_value value)
    (fun e =>
       match e with
       | NoOptionError _ | NoSectionError _ =>
           raise (AttributeError
                    ("Parameter does not exist in config file: " ++ param_name)%string)
       | _ => raise e
       end).

Definition Section__setattr__ (self : SectionParser) (param_name : string)
    (value : Value L) : C unit :=
  if existsb (String.eqb param_name) ["_parser"; "_section_name"] then
    fun st =>
      (inr tt,
       {| parser := parser st;
          own_attributes := own_attributes st ++ [(param_name, value)] |})
  else
    try_except
      (call (parser_set L (_section_name self) param_name (safe_strtype L value)))
      (fun set_err =>
         raise (PyRevitException
                  ("Error setting parameter value. | " ++ str_exc set_err)%string)).

Definition header (self : SectionParser) : string := _section_name self.

Definition subheader (self : SectionParser) : C string :=
  index_last (get_canonical_parts L (header self)).

Definition Section_has_option (self : SectionParser) (option_name : string)
  : C bool :=
  ask (parser_has_option L (_section_name self) option_name).

Definition get_option (self : SectionParser) (op_name : string)
    (default_value : Value L) : C (Value L) :=
  try_except
    (Section__getattr__ self op_name)
    (fun opt_get_err =>
       if negb (value_is_None L default_value) then
         Section__setattr__ self op_name default_value ;;
         ret default_value
       else raise opt_get_err).

Definition set_option (self : SectionParser) (op_name : string)
    (value : Value L) : C unit :=
  Section__setattr__ self op_name value.

Definition remove_option (self : SectionParser) (option_name : string)
  : C bool :=
  fun st =>
    let '(r, p') := parser_remove_option L (_section_name self) option_name
                      (parser st) in
    (r, {| parser := p'; own_attributes := own_attributes st |}).

Definition add_subsection (self : SectionParser) (section_name : string)
  : C unit :=
  call (parser_add_section L
          (make_canonical_name L (_section_name self) section_name)).

Definition get_subsections (self : SectionParser) : C (list SectionParser) :=
  let subsections := [] in
  names <- ask (parser_sections L) ;;
  for_in names
    (fun section_name subsections =>
       if String.prefix (_section_name self ++ ".")%string section_name then
         let subsec := {| _section_name := section_name |} in
         ret (subsections ++ [subsec])
       else ret subsections)
    subsections.

(** The function has no [return] after the loop: it answers [None]. *)
Definition get_subsection (self : SectionParser) (section_name : string)
  : C (option SectionParser) :=
  subsections <- get_subsections self ;;
  for_in_return subsections
    (fun subsection =>
       sub <- subheader subsection ;;
       if String.eqb sub section_name then ret (Some subsection)
       else ret None).

Definition has_subsection (self : SectionParser) (section_name : string)
  : C bool :=
  found <- get_subsection self section_name ;;
  ret (match found with Some _ => true | None => false end).

(** ** [PyRevitConfigParser] (lines 113-174) *)

Definition Parser__getattr__ (section_name : string) : C SectionParser :=
  has <- ask (parser_has_section L section_name) ;;
  if has then ret {| _section_name := section_name |}
  else raise (AttributeError "Section does not exist in config file.").

Definition get_section (section_name : string) : C SectionParser :=
  has <- ask (parser_has_section L section_name) ;;
  if has then ret {| _section_name := section_name |}
  else
    names <- ask (parser_sections L) ;;
    found <- for_in_return names
               (fun cfg_section_name =>
                  master_section <-
                    index_first (get_canonical_parts L cfg_section_name) ;;
                  if String.eqb section_name master_section
                  then ret (Some {| _section_name := master_section |})
                  else ret None) ;;
    match found with
    | Some section => ret section
    | None => raise (AttributeError "Section does not exist in config file.")
    end.

Definition Parser__iter__ : C (list SectionParser) :=
  names <- ask (parser_sections L) ;;
  for_in names
    (fun x sections =>
       section <- get_section x ;;
       ret (sections ++ [section]))
    [].

Definition has_section (section_name : string) : C bool :=
  try_except
    (get_section section_name ;; ret true)
    (fun _ => ret false).

Definition add_section (section_name : string) : C SectionParser :=
  call (parser_add_section L section_name) ;;
  ret {| _section_name := section_name |}.

Definition remove_section (section_name : string) : C unit :=
  cfg_section <- get_section section_name ;;
  subsections <- get_subsections cfg_section ;;
  for_in subsections
    (fun cfg_subsection (_ : unit) =>
       call_value (parser_remove_section L (header cfg_subsection)) ;;
       ret tt)
    tt ;;
  call_value (parser_remove_section L (header cfg_section)) ;;
  ret tt.

(** ** What the methods compute, as plain functions of the parser *)

(** The first canonical part of a section name is [name]. *)
Definition master_is (name cfg_section_name : string) : bool :=
  match get_canonical_parts L cfg_section_name with
  | [] => false
  | master_section :: _ => String.eqb name master_section
  end.

(** The section name lies below [hdr]. *)
Definition below (hdr cfg_section_name : string) : bool :=
  String.prefix (hdr ++ ".")%string cfg_section_name.

(** The last canonical part of a section name is [name]. *)
Definition subheader_is (name cfg_section_name : string) : bool :=
  match get_canonical_parts L cfg_section_name with
  | [] => false
  | x :: rest => String.eqb (last rest x) name
  end.

(** The parser after [remove_section] has been called on each name. *)
Fixpoint remove_all (names : list string) (p : Parser L) : Parser L :=
  match names with
  | [] => p
  | n :: rest => remove_all rest (snd (parser_remove_section L n p))
  end.

End Model.

Arguments parser {L} _.
Arguments own_attributes {L} _.
Arguments ret {L A} _ _.
Arguments bind {L A B} _ _ _.
Arguments raise {L A} _ _.
Arguments try_except {L A} _ _ _.
Arguments ask {L A} _ _.
Arguments read {L A} _ _.
Arguments call {L} _ _.
Arguments call_value {L A} _ _.
Arguments lift {L A} _ _.
Arguments for_in {L A Acc} _ _ _.
Arguments for_in_return {L A R} _ _.
Arguments index_first {L} _.
Arguments index_last {L} _.
Arguments Section__iter__ {L} _.
Arguments cleanup_value {L} _.
Arguments Section__getattr__ {L} _ _.
Arguments Section__setattr__ {L} _ _ _.
Arguments subheader {L} _.
Arguments Section_has_option {L} _ _.
Arguments get_option {L} _ _ _.
Arguments set_option {L} _ _ _.
Arguments remove_option {L} _ _.
Arguments add_subsection {L} _ _.
Arguments get_subsections {L} _.
Arguments get_subsection {L} _ _.
Arguments has_subsection {L} _ _.
Arguments Parser__getattr__ {L} _.
Arguments get_section {L} _.
Arguments Parser__iter__ {L}.
Arguments has_section {L} _.
Arguments add_section {L} _.
Arguments remove_section {L} _.
Arguments master_is {L} _ _.
Arguments subheader_is {L} _ _.
Arguments remove_all {L} _ _.

End Config.

(** ** A small config to run the wrappers on

    The parser is a list of sections with their options; canonical names
    are dotted names.  Section [ext] exists only through its subsection
    [ext.tools]. *)
Module ConfigDemo.

Import Config.

Inductive PyValue : Type :=
| PyNone
| PyBool (b : bool)
| PyInt (n : Z)
| PyStr (s : string).

Definition Sections : Type := list (string * list (string * string)).

Definition names (p : Sections) : list string := map fst p.

Definition has (n : string) (p : Sections) : bool :=
  existsb (String.eqb n) (names p).

Definition lookup {A} (k : string) (l : list (string * A)) : option A :=
  option_map snd (find (fun e => String.eqb (fst e) k) l).

Definition drop {A} (k : string) (l : list (string * A)) : list (string * A) :=
  filter (fun e => negb (String.eqb (fst e) k)) l.

Definition no_section (n : string) : CfgException :=
  NoSectionError ("No section: '" ++ n ++ "'")%string.

Definition lower_ascii (c : ascii) : ascii :=
  let n := nat_of_ascii c in
  if (65 <=? n)%nat && (n <=? 90)%nat then ascii_of_nat (n + 32) else c.

Fixpoint lower (s : string) : string :=
  match s with
  | EmptyString => EmptyString
  | String c rest => String (lower_ascii c) (lower rest)
  end.

Definition is_digit (c : ascii) : bool :=
  let n := nat_of_ascii c in (48 <=? n)%nat && (n <=? 57)%nat.

Fixpoint all_digits (s : string) : bool :=
  match s with
  | EmptyString => true
  | String c rest => is_digit c && all_digits rest
  end.

Fixpoint digits_value (s : string) (acc : Z) : Z :=
  match s with
  | EmptyString => acc
  | String c rest =>
      digits_value rest (10 * acc + Z.of_nat (nat_of_ascii c - 48))%Z
  end.

Fixpoint split_dot (s : string) : list string :=
  match s with
  | EmptyString => [EmptyString]
  | String c rest =>
      if Ascii.eqb c "."%char then EmptyString :: split_dot rest
      else
        match split_dot rest with
        | [] => [String c EmptyString]
        | x :: xs => String c x :: xs
        end
  end.

Definition lib : Collaborators := {|
  Parser := Sections;
  Value := PyValue;
  parser_sections := names;
  parser_has_section := has;
  parser_add_section := fun n p =>
    if has n p then (Some (OtherException ("Section already exists: " ++ n)%string), p)
    else (None, p ++ [(n, [])]);
  parser_remove_section := fun n p => (has n p, drop n p);
  parser_options := fun n p =>
    match lookup n p with
    | Some opts => inr (map fst opts)
    | None => inl (no_section n)
    end;
  parser_get := fun n o p =>
    match lookup n p with
    | Some opts =>
        match lookup o opts with
        | Some v => inr v
        | None =>
            inl (NoOptionError
                   ("No option '" ++ o ++ "' in section: '" ++ n ++ "'")%string)
        end
    | None => inl (no_section n)
    end;
  parser_set := fun n o v p =>
    if has n p then
      (None,
       map (fun e => if String.eqb (fst e) n
                     then (fst e, drop o (snd e) ++ [(o, v)]) else e) p)
    else (Some (no_section n), p);
  parser_has_option := fun n o p =>
    match lookup n p with
    | Some opts => match lookup o opts with Some _ => true | None => false end
    | None => false
    end;
  parser_remove_option := fun n o p =>
    match lookup n p with
    | Some opts =>
        (inr (match lookup o opts with Some _ => true | None => false end),
         map (fun e => if String.eqb (fst e) n
                       then (fst e, drop o (snd e)) else e) p)
    | None => (inl (no_section n), p)
    end;
  str_lower := lower;
  str_isdecimal := fun s => negb (String.eqb s "") && all_digits s;
  int_of_str := fun s =>
    if negb (String.eqb s "") && all_digits s then inr (digits_value s 0)
    else inl (OtherException "invalid literal for int()");
  literal_eval_str := fun s =>
    if String.eqb s "True" then inr (PyBool true)
    else if String.eqb s "False" then inr (PyBool false)
    else if String.eqb s "None" then inr PyNone
    else inl (OtherException "malformed string");
  literal_eval_int := fun _ => inl (OtherException "malformed string");
  value_of_str := PyStr;
  value_of_int := PyInt;
  value_is_None := fun v => match v with PyNone => true | _ => false end;
  safe_strtype := fun v =>
    match v with
    | PyNone => "None"
    | PyBool true => "True"
    | PyBool false => "False"
    | PyInt n => NilEmpty.string_of_int (Z.to_int n)
    | PyStr s => s
    end;
  get_canonical_parts := split_dot;
  make_canonical_name := fun a b => (a ++ "." ++ b)%string
|}.

Definition cfg : Sections :=
  [("core", [("verbose", "TRUE"); ("maxusers", "12"); ("name", "pyRevit")]);
   ("core.updates", [("auto", "false")]);
   ("core.updates.channels", []);
   ("ext.tools", [])].

Definition start (p : Sections) : State lib := Build_State lib p [].

Definition core : SectionParser := {| _section_name := "core" |}.

End ConfigDemo.

(** ** Measures on the log *)

Definition is_error_record {P : Platform} (r : LogRecord P) : bool :=
  match levelname r with
  | ERROR => true
  | DEBUG => false
  end.

(** The string holds no newline character. *)
Fixpoint single_line (s : string) : bool :=
  match s with
  | EmptyString => true
  | String c rest => negb (Ascii.eqb c "010"%char) && single_line rest
  end.

(** The exception texts that the divergence check formats into its error
    lines (lines 116 and 130) hold no newline. *)
Definition error_text_single_line {P : Platform} (r : LogRecord P) : Prop :=
  match msg r with
  | Msg_failed_fetching _ fetch_err => single_line fetch_err = true
  | Msg_can_not_compare _ _ compare_err => single_line compare_err = true
  | _ => True
  end.


(** * Verification *)

Section Facts.

Variable P : Platform.

Local Abbreviation World := (World P).
Local Abbreviation Repository := (Repository P).
Local Abbreviation PkgInfo := (PkgInfo P).
Local Abbreviation PyRevitRepoInfo := (PyRevitRepoInfo P).
Local Abbreviation LogRecord := (LogRecord P).
Local Abbreviation State := (State P).
Local Abbreviation LogMessage := (LogMessage P).
Local Abbreviation M := (M P).

Notation "x <- m ;; k" := (bind m (fun x => k))
  (at level 61, m at next level, right associativity).
Notation "m ;; k" := (bind m (fun _ => k))
  (at level 61, right associativity).

(** ** Equations of the monad *)

Lemma logged_nil (s : State) : logged s [] = s.
Proof. destruct s; unfold logged; simpl. now rewrite app_nil_r. Qed.

Lemma logged_logged (s : State) (l1 l2 : list LogRecord) :
  logged (logged s l1) l2 = logged s (l1 ++ l2).
Proof. unfold logged; simpl. now rewrite app_assoc. Qed.

Lemma emit_eq (lvl : Level) (m : LogMessage) (s : State) :
  emit lvl m s = (inr tt, logged s [{| levelname := lvl; msg := m |}]).
Proof. reflexivity. Qed.

Lemma bind_inr {A B} (m : M A) (k : A -> M B) (s s' : State) (a : A) :
  m s = (inr a, s') -> bind m k s = k a s'.
Proof. intros E. unfold bind. now rewrite E. Qed.

Lemma bind_inl {A B} (m : M A) (k : A -> M B) (s s' : State) (e : PyException) :
  m s = (inl e, s') -> bind m k s = (inl e, s').
Proof. intros E. unfold bind. now rewrite E. Qed.

Lemma open_repo_info_eq (dir : path) (s : State) :
  open_repo_info dir s = (snapshot dir (world s), s).
Proof.
  unfold open_repo_info, snapshot, bind, read, get_world, getattr, ret, raise.
  destruct (Repository_open P dir (world s)) as [e | r]; [reflexivity |].
  destruct (Head_Tip P r (world s)); reflexivity.
Qed.

(** ** Discovery *)

Lemma get_pyrevit_repo_eq (s : State) :
  get_pyrevit_repo s =
  match snapshot (HOME_DIR P) (world s) with
  | inr h => (inr (Some h), s)
  | inl _ => (inr None, logged s [err (Msg_can_not_create_repo (HOME_DIR P))])
  end.
Proof.
  unfold get_pyrevit_repo, try_except, bind.
  rewrite open_repo_info_eq.
  destruct (snapshot (HOME_DIR P) (world s)); reflexivity.
Qed.

Lemma is_valid_pkg_eq (pkg_info : option PkgInfo) (s : State) :
  is_valid_pkg pkg_info s = (inr (passes_probe (world s) pkg_info), s).
Proof. destruct pkg_info; reflexivity. Qed.

(** The inner loop of lines 62-64 keeps the descriptors that pass the
    probe, and never raises. *)
Lemma scan_pkg_info_list (l pkgs : list (option PkgInfo)) (s : State) :
  for_in l
    (fun pkg_info pkgs =>
       ok <- is_valid_pkg pkg_info ;;
       if ok then ret (pkgs ++ [pkg_info]) else ret pkgs)
    pkgs s
  = (inr (pkgs ++ filter (passes_probe (world s)) l), s).
Proof.
  revert pkgs. induction l as [| pkg_info l IH]; intros pkgs; simpl.
  - unfold ret. now rewrite app_nil_r.
  - unfold bind at 1. unfold bind at 1. rewrite is_valid_pkg_eq.
    destruct (passes_probe (world s) pkg_info); unfold ret at 1.
    + rewrite IH. now rewrite <- app_assoc.
    + apply IH.
Qed.

Lemma scan_root_dirs (roots : list path) (pkgs : list (option PkgInfo)) (s : State) :
  for_in roots
    (fun root_dir pkgs =>
       w <- get_world ;;
       let pkg_info_list := get_installed_package_data P root_dir w in
       for_in pkg_info_list
         (fun pkg_info pkgs =>
            ok <- is_valid_pkg pkg_info ;;
            if ok then ret (pkgs ++ [pkg_info]) else ret pkgs)
         pkgs)
    pkgs s
  = (inr (pkgs ++
          filter (passes_probe (world s))
            (flat_map (fun root_dir => get_installed_package_data P root_dir (world s))
               roots)), s).
Proof.
  revert pkgs. induction roots as [| root_dir roots IH]; intros pkgs; simpl.
  - unfold ret. now rewrite app_nil_r.
  - unfold bind at 1. unfold bind at 1. unfold get_world at 1.
    rewrite scan_pkg_info_list, IH, filter_app. now rewrite app_assoc.
Qed.

(** The loop of lines 69-75 over descriptors none of which is [None]. *)
Lemma open_pkgs (pkgs : list (option PkgInfo)) (repos : list PyRevitRepoInfo)
    (s : State) :
  Forall (fun o => truthy o = true) pkgs ->
  for_in pkgs
    (fun pkg_info repos =>
       try_except
         (dir <- getattr "directory" (pkg_directory P) pkg_info ;;
          repo_info <- open_repo_info dir ;;
          ret (repos ++ [repo_info]))
         (fun err =>
            dir <- getattr "directory" (pkg_directory P) pkg_info ;;
            logger_error (Msg_can_not_create_repo dir) ;;
            ret repos))
    repos s
  = (inr (repos ++ flat_map (opened_of (world s)) pkgs),
     logged s (flat_map (open_error_of (world s)) pkgs)).
Proof.
  intros H. revert repos s.
  induction H as [| pkg_info pkgs Hx _ IH]; intros repos s; simpl.
  - unfold ret. now rewrite app_nil_r, logged_nil.
  - destruct pkg_info as [p |]; [| discriminate Hx]. simpl.
    unfold bind at 1, try_except at 1. unfold bind at 1. unfold ret at 1.
    unfold bind at 1. rewrite open_repo_info_eq.
    destruct (snapshot (pkg_directory P p) (world s)) as [e | h]; simpl.
    + rewrite IH. unfold logged; simpl. now rewrite <- app_assoc.
    + rewrite IH. now rewrite <- app_assoc.
Qed.

Lemma valid_pkgs_truthy (w : World) :
  Forall (fun o => truthy o = true) (valid_pkgs w).
Proof.
  apply Forall_forall. intros o Hin. apply filter_In in Hin.
  destruct Hin as [_ Hp]. destruct o; [reflexivity | discriminate Hp].
Qed.

(** What third-party discovery returns and logs. *)
Lemma get_thirdparty_pkg_repos_eq (s : State) :
  get_thirdparty_pkg_repos s =
  (inr (flat_map (opened_of (world s)) (valid_pkgs (world s))),
   logged s
     (dbg Msg_finding_installed_repos ::
      dbg (Msg_valid_thirdparty_packages (valid_pkgs (world s))) ::
      flat_map (open_error_of (world s)) (valid_pkgs (world s)))).
Proof.
  unfold get_thirdparty_pkg_repos.
  unfold bind at 1. unfold logger_debug at 1. rewrite emit_eq.
  unfold bind at 1. unfold get_world at 1.
  unfold bind at 1. rewrite scan_root_dirs. simpl app.
  unfold bind at 1. unfold logger_debug at 1. rewrite emit_eq.
  rewrite open_pkgs by apply valid_pkgs_truthy.
  simpl. rewrite !logged_logged. reflexivity.
Qed.

(** ** Update *)

(** The statements of lines 88-91, before the [try], when the head of the
    repository has no tip. *)
Lemma update_pyrevit_before_try (repo_info : PyRevitRepoInfo) (s : State) :
  Head_Tip P (repo repo_info) (world s) = None ->
  update_pyrevit repo_info s =
  (inl (no_attribute "Message"),
   logged s [dbg (Msg_updating_repo (directory repo_info))]).
Proof.
  intros Htip. unfold update_pyrevit.
  unfold bind at 1. unfold logger_debug at 1. rewrite emit_eq.
  unfold bind at 1. unfold get_world at 1.
  unfold bind at 1. simpl world. rewrite Htip. reflexivity.
Qed.

(** The whole function when the head has a tip at the start. *)
Lemma update_pyrevit_eq (repo_info : PyRevitRepoInfo) (s : State) (c : Commit) :
  Head_Tip P (repo repo_info) (world s) = Some c ->
  update_pyrevit repo_info s =
  let before :=
    [dbg (Msg_updating_repo (directory repo_info));
     dbg (Msg_current_head (Sha c) (remove_newlines (Message c)))] in
  match Network_Pull P (repo repo_info)
          (_make_pull_signature (DateTime_Now P (world s)))
          _make_pull_options (world s) with
  | (Some pull_err, w') =>
      (inr false,
       {| world := w';
          records := records s ++ before ++
            [err (Msg_failed_updating (directory repo_info) pull_err)] |})
  | (None, w') =>
      match Head_Tip P (repo repo_info) w' with
      | Some c' =>
          (inr true,
           {| world := w';
              records := records s ++ before ++
                [dbg (Msg_successfully_updated (directory repo_info));
                 dbg (Msg_new_head (Sha c') (remove_newlines (Message c')))] |})
      | None =>
          (inr false,
           {| world := w';
              records := records s ++ before ++
                [dbg (Msg_successfully_updated (directory repo_info));
                 err (Msg_failed_updating (directory repo_info)
                        (no_attribute "Message"))] |})
      end
  end.
Proof.
  intros Htip. destruct s as [w recs]. simpl in Htip.
  unfold update_pyrevit, bind, try_except, logger_debug, logger_error, emit,
    get_world, call, getattr, ret, raise, no_attribute; simpl.
  rewrite Htip; simpl.
  destruct (Network_Pull P (repo repo_info) _ _ w) as [[pull_err |] w']; simpl.
  - now rewrite <- !app_assoc.
  - destruct (Head_Tip P (repo repo_info) w'); simpl; now rewrite <- !app_assoc.
Qed.

(** ** Divergence check *)

Lemma fetch_loop (repo_info : PyRevitRepoInfo) (remotes : list Remote) (s : State) :
  for_in remotes
    (fun remote (_ : unit) =>
       logger_debug (Msg_fetching_remote (Name remote) (directory repo_info)) ;;
       try_except
         (call (Network_Fetch P (repo repo_info) remote _make_fetch_options))
         (fun fetch_err =>
            logger_error
              (Msg_failed_fetching (directory repo_info)
                 (remove_newlines (str_exc fetch_err)))))
    tt s
  = (inr tt,
     {| world := fetch_all (repo repo_info) remotes (world s);
        records := records s ++ fetch_records repo_info remotes (world s) |}).
Proof.
  revert s. induction remotes as [| remote rest IH]; intros [w recs]; simpl.
  - unfold ret. now rewrite app_nil_r.
  - unfold bind at 1, bind at 1, logger_debug, logger_error, try_except, call,
      emit, fetch_records_of; simpl.
    destruct (Network_Fetch P (repo repo_info) remote _make_fetch_options w)
      as [[fetch_err |] w']; simpl; rewrite IH; simpl;
      now rewrite <- !app_assoc.
Qed.

Lemma compare_branch_eq (repo_info : PyRevitRepoInfo) (branch : Branch) (s : State) :
  compare_branch repo_info branch s =
  (inr (if behind (repo repo_info) (world s) branch then Some true else None),
   logged s (compare_records_of (repo repo_info) (world s) branch)).
Proof.
  destruct s as [w recs].
  unfold compare_branch, behind, divergence_of, compare_records_of, logged.
  destruct (IsRemote branch); simpl.
  - unfold ret. now rewrite app_nil_r.
  - destruct (TrackedBranch branch) as [tracked |]; simpl.
    + unfold try_except, bind, logger_debug, logger_error, emit, read, ret; simpl.
      destruct (CalculateHistoryDivergence P (repo repo_info) (Tip branch)
                  (Tip tracked) w) as [compare_err | hist_div]; simpl.
      * now rewrite <- app_assoc.
      * destruct (BehindBy hist_div >? 0)%Z; reflexivity.
    + unfold try_except, ret; simpl. now rewrite app_nil_r.
Qed.

Lemma compare_loop (repo_info : PyRevitRepoInfo) (branches : list Branch) (s : State) :
  for_in_return branches (compare_branch repo_info) s =
  (inr (if existsb (behind (repo repo_info) (world s)) branches
        then Some true else None),
   logged s (compare_records (repo repo_info) (world s) branches)).
Proof.
  revert s. induction branches as [| branch rest IH]; intros s; simpl.
  - unfold ret. now rewrite logged_nil.
  - unfold bind. rewrite compare_branch_eq.
    destruct (behind (repo repo_info) (world s) branch); simpl.
    + unfold ret. now rewrite app_nil_r.
    + rewrite IH. simpl. now rewrite logged_logged.
Qed.

(** What the divergence check returns, logs and leaves behind. *)
Lemma has_pending_updates_eq (repo_info : PyRevitRepoInfo) (s : State) :
  let r := repo repo_info in
  let w := world s in
  let w' := fetch_all r (Network_Remotes P r w) w in
  has_pending_updates repo_info s =
  (inr (existsb (behind r w') (Branches P r w')),
   {| world := w';
      records := records s ++
        dbg (Msg_fetching_updates (directory repo_info)) ::
        dbg (Msg_repo_branches (Branches P r w)) ::
        fetch_records repo_info (Network_Remotes P r w) w ++
        compare_records r w' (Branches P r w') |}).
Proof.
  intros r w w'. unfold has_pending_updates.
  unfold bind at 1. unfold logger_debug at 1. rewrite emit_eq.
  unfold bind at 1. unfold get_world at 1.
  unfold bind at 1. unfold logger_debug at 1. rewrite emit_eq.
  unfold bind at 1. unfold get_world at 1.
  unfold bind at 1. rewrite fetch_loop.
  unfold bind at 1. unfold get_world at 1.
  unfold bind at 1. rewrite compare_loop. simpl world.
  subst r w w'. unfold logged; simpl records.
  destruct (existsb _ _); unfold ret; simpl; now rewrite <- !app_assoc.
Qed.

(** ** Counting records and descriptors *)

Lemma count_app {A} (f : A -> bool) (l1 l2 : list A) :
  count f (l1 ++ l2) = count f l1 + count f l2.
Proof. unfold count. now rewrite filter_app, length_app. Qed.

Lemma count_cons {A} (f : A -> bool) (x : A) (l : list A) :
  count f (x :: l) = (if f x then 1 else 0) + count f l.
Proof. unfold count; simpl. now destruct (f x). Qed.

Lemma is_open_error_err (D dir : path) :
  is_open_error (P := P) D (err (Msg_can_not_create_repo dir)) = String.eqb dir D.
Proof. reflexivity. Qed.

(** The open errors that name [D]: one for each descriptor naming [D] when
    [D] cannot be opened, none when it can. *)
Lemma count_open_errors (w : World) (D : path) (l : list (option PkgInfo)) :
  count (is_open_error D) (flat_map (open_error_of w) l) =
  match snapshot D w with
  | inl _ => count (names_dir D) l
  | inr _ => 0
  end.
Proof.
  induction l as [| o l IH]; simpl.
  - now destruct (snapshot D w).
  - rewrite count_app, IH, count_cons. clear IH.
    destruct o as [p |]; simpl.
    + destruct (String.eqb (pkg_directory P p) D) eqn:E.
      * apply String.eqb_eq in E. rewrite E.
        destruct (snapshot D w); [| reflexivity].
        now rewrite count_cons, is_open_error_err, String.eqb_refl.
      * destruct (snapshot (pkg_directory P p) w); simpl.
        -- rewrite count_cons, is_open_error_err, E.
           now destruct (snapshot D w).
        -- now destruct (snapshot D w).
    + now destruct (snapshot D w).
Qed.

Lemma count_names_valid (w : World) (D : path) (l : list (option PkgInfo)) :
  count (names_dir D) (filter (passes_probe w) l) =
  if Repository_IsValid P D w then count (names_dir D) l else 0.
Proof.
  induction l as [| o l IH]; simpl.
  - now destruct (Repository_IsValid P D w).
  - destruct o as [p |]; simpl.
    + destruct (String.eqb (pkg_directory P p) D) eqn:E.
      * assert (Hd : pkg_directory P p = D) by now apply String.eqb_eq.
        rewrite Hd.
        destruct (Repository_IsValid P D w) eqn:V; [| exact IH].
        rewrite !count_cons, IH. simpl. now rewrite E.
      * assert (Hc : count (names_dir D) (Some p :: l) = count (names_dir D) l).
        { rewrite count_cons. simpl. now rewrite E. }
        rewrite Hc.
        destruct (Repository_IsValid P (pkg_directory P p) w); [| exact IH].
        rewrite count_cons, IH. simpl. now rewrite E.
    + rewrite IH. now rewrite count_cons.
Qed.

(** Every handle third-party discovery returns was opened from the
    directory of a descriptor that is not [None] and passes the probe. *)
Lemma opened_from (w : World) (h : PyRevitRepoInfo) :
  In h (flat_map (opened_of w) (valid_pkgs w)) ->
  exists p : PkgInfo,
    In (Some p) (located w) /\
    Repository_IsValid P (pkg_directory P p) w = true /\
    snapshot (pkg_directory P p) w = inr h.
Proof.
  intros Hin. apply in_flat_map in Hin. destruct Hin as [o [Ho Hh]].
  apply filter_In in Ho. destruct Ho as [Hloc Hprobe].
  destruct o as [p |]; [| contradiction]. simpl in Hh, Hprobe.
  exists p. split; [exact Hloc |]. split; [exact Hprobe |].
  destruct (snapshot (pkg_directory P p) w) as [e | h']; [contradiction |].
  destruct Hh as [-> | []]. reflexivity.
Qed.

Lemma fst_open_repo_info (dir : path) (s : State) :
  fst (open_repo_info dir s) = snapshot dir (world s).
Proof. now rewrite open_repo_info_eq. Qed.

(** ** The two loops of the divergence check, piece by piece *)

Lemma fetch_all_app (r : Repository) (l1 l2 : list Remote) (w : World) :
  fetch_all r (l1 ++ l2) w = fetch_all r l2 (fetch_all r l1 w).
Proof. revert w. induction l1 as [| remote l1 IH]; intros w; simpl; auto. Qed.

Lemma fetch_records_app (repo_info : PyRevitRepoInfo) (l1 l2 : list Remote)
    (w : World) :
  fetch_records repo_info (l1 ++ l2) w =
  fetch_records repo_info l1 w ++
  fetch_records repo_info l2 (fetch_all (repo repo_info) l1 w).
Proof.
  revert w. induction l1 as [| remote l1 IH]; intros w; simpl.
  - reflexivity.
  - now rewrite IH, <- app_assoc.
Qed.

Lemma fetch_records_attempt (repo_info : PyRevitRepoInfo) (remotes : list Remote)
    (w : World) (remote : Remote) :
  In remote remotes ->
  In (dbg (Msg_fetching_remote (Name remote) (directory repo_info)))
     (fetch_records repo_info remotes w).
Proof.
  revert w. induction remotes as [| x rest IH]; intros w Hin; simpl in *.
  - contradiction.
  - destruct Hin as [-> | Hin].
    + now left.
    + right. apply in_or_app. right. now apply IH.
Qed.

Lemma compare_records_app (r : Repository) (w : World) (l1 l2 : list Branch) :
  existsb (behind r w) l1 = false ->
  compare_records r w (l1 ++ l2) =
  compare_records r w l1 ++ compare_records r w l2.
Proof.
  induction l1 as [| branch l1 IH]; simpl; intros H.
  - reflexivity.
  - apply orb_false_iff in H. destruct H as [Hb Hl]. rewrite Hb.
    now rewrite IH, app_assoc.
Qed.

(** A branch whose divergence cannot be computed is not found behind, and
    leaves the "comparing" line and one error. *)
Lemma failed_comparison (r : Repository) (w : World) (branch tracked : Branch)
    (compare_err : PyException) :
  IsRemote branch = false ->
  TrackedBranch branch = Some tracked ->
  CalculateHistoryDivergence P r (Tip branch) (Tip tracked) w = inl compare_err ->
  behind r w branch = false /\
  compare_records_of r w branch =
  [dbg (Msg_comparing_heads (CanonicalName branch) (CanonicalName tracked));
   err (Msg_can_not_compare branch r (remove_newlines (str_exc compare_err)))].
Proof.
  intros Hl Ht Hd. unfold behind, divergence_of, compare_records_of.
  now rewrite Hl, Ht, Hd.
Qed.

Lemma behind_iff (r : Repository) (w : World) (branch : Branch) :
  behind r w branch = true <->
  IsRemote branch = false /\
  exists tracked hist_div,
    TrackedBranch branch = Some tracked /\
    CalculateHistoryDivergence P r (Tip branch) (Tip tracked) w = inr hist_div /\
    (BehindBy hist_div > 0)%Z.
Proof.
  unfold behind, divergence_of. split.
  - destruct (IsRemote branch); [discriminate |].
    destruct (TrackedBranch branch) as [tracked |]; [| discriminate].
    destruct (CalculateHistoryDivergence P r (Tip branch) (Tip tracked) w)
      as [e | hist_div] eqn:E; [discriminate |].
    intros H. split; [reflexivity |]. exists tracked, hist_div.
    repeat split; auto. apply Z.gtb_lt in H. lia.
  - intros [Hl [tracked [hist_div [Ht [Hd Hb]]]]].
    rewrite Hl, Ht, Hd. apply Z.gtb_lt. lia.
Qed.

(** ** Properties of discovery *)

Lemma get_all_available_repos_eq (s : State) :
  get_all_available_repos s =
  let '(home, s1) := get_pyrevit_repo s in
  let '(thirdparty, s2) := get_thirdparty_pkg_repos s1 in
  match home, thirdparty with
  | inr home, inr thirdparty => (inr (home :: map Some thirdparty), s2)
  | inl e, _ => (inl e, s1)
  | _, inl e => (inl e, s2)
  end.
Proof.
  unfold get_all_available_repos, bind.
  destruct (get_pyrevit_repo s) as [[e | home] s1]; simpl.
  - now destruct (get_thirdparty_pkg_repos s1).
  - destruct (get_thirdparty_pkg_repos s1) as [[e | thirdparty] s2]; reflexivity.
Qed.

(** When the home repository opens, its handle is the first element. *)
Lemma get_all_available_repos_home_first (s : State) (h : PyRevitRepoInfo) :
  fst (open_repo_info (HOME_DIR P) s) = inr h ->
  exists thirdparty s',
    get_thirdparty_pkg_repos s = (inr thirdparty, s') /\
    get_all_available_repos s = (inr (Some h :: map Some thirdparty), s').
Proof.
  rewrite fst_open_repo_info. intros Hs.
  rewrite get_all_available_repos_eq, get_pyrevit_repo_eq, Hs.
  rewrite get_thirdparty_pkg_repos_eq. eauto.
Qed.

(** C2.  When the home
    repository cannot be opened, [get_pyrevit_repo] logs the error and
    answers [None], and [get_all_available_repos] puts that [None] in front
    of the third-party handles: the list has one element more than there
    are third-party handles, and its first element is not a handle. *)
Theorem get_all_available_repos_keeps_none (s : State) (e : PyException) :
  fst (open_repo_info (HOME_DIR P) s) = inl e ->
  exists thirdparty s',
    get_thirdparty_pkg_repos
      (logged s [err (Msg_can_not_create_repo (HOME_DIR P))])
    = (inr thirdparty, s') /\
    get_all_available_repos s = (inr (None :: map Some thirdparty), s').
Proof.
  rewrite fst_open_repo_info. intros Hs.
  rewrite get_all_available_repos_eq, get_pyrevit_repo_eq, Hs.
  rewrite get_thirdparty_pkg_repos_eq. eauto.
Qed.

(** C5.  A directory [D] that fails [git.Repository.IsValid] is skipped
    by third-party discovery without a trace: the function returns, every
    handle it returns was opened from a located directory other than [D],
    the descriptors it keeps for opening do not name [D], and none of the
    records it adds is an open error for [D]. *)
Theorem invalid_directory_silently_skipped (s : State) (D : path) :
  Repository_IsValid P D (world s) = false ->
  exists repos new,
    get_thirdparty_pkg_repos s = (inr repos, logged s new) /\
    (forall h, In h repos ->
       exists p, In (Some p) (located (world s)) /\
                 pkg_directory P p <> D /\
                 fst (open_repo_info (pkg_directory P p) s) = inr h) /\
    (forall pkgs, In (dbg (Msg_valid_thirdparty_packages pkgs)) new ->
       count (names_dir D) pkgs = 0) /\
    count (is_open_error D) new = 0.
Proof.
  intros Hinvalid. rewrite get_thirdparty_pkg_repos_eq.
  assert (Hnone : count (names_dir D) (valid_pkgs (world s)) = 0).
  { unfold valid_pkgs. now rewrite count_names_valid, Hinvalid. }
  eexists. eexists. split; [reflexivity |]. split; [| split].
  - intros h Hin. apply opened_from in Hin.
    destruct Hin as [p [Hloc [Hvalid Hopen]]].
    exists p. split; [exact Hloc |]. split.
    + intros Heq. rewrite Heq in Hvalid. congruence.
    + now rewrite fst_open_repo_info.
  - intros pkgs [Heq | [Heq | Hin]].
    + discriminate Heq.
    + injection Heq as <-. exact Hnone.
    + apply in_flat_map in Hin. destruct Hin as [o [_ Ho]].
      destruct o as [p |]; [| contradiction]. simpl in Ho.
      destruct (snapshot (pkg_directory P p) (world s)); [| contradiction].
      destruct Ho as [Ho | []]. discriminate Ho.
  - rewrite !count_cons. simpl. rewrite count_open_errors, Hnone.
    now destruct (snapshot D (world s)).
Qed.

(** C6, as amended.  A directory [D] that passes the probe but cannot be
    opened is left out of the result, and third-party discovery logs one
    error for it per located descriptor that names it: exactly one for a
    directory the locator reports once, two for one it reports twice. *)
Theorem unopenable_candidate_logged_once (s : State) (D : path) (e : PyException) :
  Repository_IsValid P D (world s) = true ->
  fst (open_repo_info D s) = inl e ->
  exists repos new,
    get_thirdparty_pkg_repos s = (inr repos, logged s new) /\
    (forall h, In h repos ->
       exists p, In (Some p) (located (world s)) /\
                 pkg_directory P p <> D /\
                 fst (open_repo_info (pkg_directory P p) s) = inr h) /\
    count (is_open_error D) new = count (names_dir D) (located (world s)).
Proof.
  rewrite fst_open_repo_info. intros Hvalid Hfail.
  rewrite get_thirdparty_pkg_repos_eq.
  eexists. eexists. split; [reflexivity |]. split.
  - intros h Hin. apply opened_from in Hin.
    destruct Hin as [p [Hloc [_ Hopen]]].
    exists p. split; [exact Hloc |]. split.
    + intros Heq. rewrite Heq in Hopen. congruence.
    + now rewrite fst_open_repo_info.
  - rewrite !count_cons. simpl. rewrite count_open_errors, Hfail.
    unfold valid_pkgs. now rewrite count_names_valid, Hvalid.
Qed.

(** The same count over the whole of discovery, for a directory other
    than the home directory (which [get_pyrevit_repo] opens without a
    probe, logging its own error when that fails). *)
Lemma discovery_open_errors (s : State) (D : path) :
  D <> HOME_DIR P ->
  exists all new,
    get_all_available_repos s = (inr all, logged s new) /\
    count (is_open_error D) new =
    match fst (open_repo_info D s) with
    | inl _ =>
        if Repository_IsValid P D (world s)
        then count (names_dir D) (located (world s))
        else 0
    | inr _ => 0
    end.
Proof.
  intros Hhome. rewrite fst_open_repo_info.
  assert (Hcount : forall pre,
    count (is_open_error D)
      (dbg Msg_finding_installed_repos ::
       dbg (Msg_valid_thirdparty_packages pre) ::
       flat_map (open_error_of (world s)) (valid_pkgs (world s))) =
    match snapshot D (world s) with
    | inl _ =>
        if Repository_IsValid P D (world s)
        then count (names_dir D) (located (world s))
        else 0
    | inr _ => 0
    end).
  { intros pre. rewrite !count_cons. simpl. rewrite count_open_errors.
    unfold valid_pkgs. now rewrite count_names_valid. }
  rewrite get_all_available_repos_eq, get_pyrevit_repo_eq.
  destruct (snapshot (HOME_DIR P) (world s)) as [e | h].
  - rewrite get_thirdparty_pkg_repos_eq, logged_logged. simpl world.
    eexists. eexists. split; [reflexivity |].
    simpl app. rewrite count_cons, is_open_error_err.
    assert (E : String.eqb (HOME_DIR P) D = false).
    { apply String.eqb_neq. congruence. }
    rewrite E. simpl. apply Hcount.
  - rewrite get_thirdparty_pkg_repos_eq.
    eexists. eexists. split; [reflexivity |]. apply Hcount.
Qed.

(** C10.  Whatever the package locator reports, [None] entries included,
    third-party discovery returns: no [AttributeError] for a dereferenced
    [None] reaches the caller.  The guard answers [False] for [None]
    without reading [.directory]; the list kept for opening holds no
    [None]; and every handle returned comes from a descriptor that is not
    [None] and passes the probe. *)
Theorem thirdparty_discovery_tolerates_none (s : State) :
  is_valid_pkg None s = (inr false, s) /\
  exists repos new,
    get_thirdparty_pkg_repos s = (inr repos, logged s new) /\
    (forall pkgs, In (dbg (Msg_valid_thirdparty_packages pkgs)) new ->
       ~ In None pkgs) /\
    (forall h, In h repos ->
       exists p, In (Some p) (located (world s)) /\
                 Repository_IsValid P (pkg_directory P p) (world s) = true /\
                 fst (open_repo_info (pkg_directory P p) s) = inr h).
Proof.
  split; [reflexivity |].
  rewrite get_thirdparty_pkg_repos_eq.
  eexists. eexists. split; [reflexivity |]. split.
  - intros pkgs [Heq | [Heq | Hin]].
    + discriminate Heq.
    + injection Heq as <-. intros Hin. apply filter_In in Hin.
      destruct Hin as [_ Hprobe]. discriminate Hprobe.
    + apply in_flat_map in Hin. destruct Hin as [o [_ Ho]].
      destruct o as [p |]; [| contradiction]. simpl in Ho.
      destruct (snapshot (pkg_directory P p) (world s)); [| contradiction].
      destruct Ho as [Ho | []]. discriminate Ho.
  - intros h Hin. apply opened_from in Hin.
    destruct Hin as [p [Hloc [Hvalid Hopen]]].
    exists p. now rewrite fst_open_repo_info.
Qed.

(** ** Properties of the update *)

(** When the head has a tip at the start, the update returns a boolean,
    [True] exactly when the pull went through and the new head could be
    read, and a [False] comes with an error record. *)
Lemma update_pyrevit_returns (repo_info : PyRevitRepoInfo) (s : State) (c : Commit) :
  Head_Tip P (repo repo_info) (world s) = Some c ->
  exists b s',
    update_pyrevit repo_info s = (inr b, s') /\
    (b = false ->
     exists pull_err,
       In (err (Msg_failed_updating (directory repo_info) pull_err)) (records s')).
Proof.
  intros Htip. rewrite (update_pyrevit_eq _ _ c Htip). cbv zeta.
  destruct (Network_Pull P (repo repo_info) _ _ (world s)) as [[pull_err |] w'].
  - eexists. eexists. split; [reflexivity |]. intros _. exists pull_err.
    simpl. apply in_or_app. right. simpl. auto.
  - destruct (Head_Tip P (repo repo_info) w').
    + eexists. eexists. split; [reflexivity |]. discriminate.
    + eexists. eexists. split; [reflexivity |]. intros _. eexists.
      simpl. apply in_or_app. right. simpl. auto.
Qed.

(** C1.  The reads of
    [repo.Head.Tip] on lines 90-91 stand before the [try].  When the head
    of the repository has no tip, [update_pyrevit] raises
    [AttributeError] to its caller after the first debug line: it returns
    no boolean and logs no error. *)
Theorem update_pyrevit_raises_before_try (repo_info : PyRevitRepoInfo) (s : State) :
  Head_Tip P (repo repo_info) (world s) = None ->
  update_pyrevit repo_info s =
  (inl (AttributeError "'NoneType' object has no attribute 'Message'"),
   logged s [dbg (Msg_updating_repo (directory repo_info))]).
Proof. exact (update_pyrevit_before_try repo_info s). Qed.

(** C8.  The head has a tip, and the backend rejects the credentials of
    the pull: [Network.Pull] throws and has not moved the head.  Then
    [update_pyrevit] returns [False], logs the error, does nothing more to
    the repository than the pull did, and the head commit read afresh is
    the one from before the call. *)
Theorem rejected_pull_returns_false_head_unchanged
    (repo_info : PyRevitRepoInfo) (s : State) (c : Commit)
    (pull_err : PyException) (w' : World) :
  Head_Tip P (repo repo_info) (world s) = Some c ->
  Network_Pull P (repo repo_info)
    (_make_pull_signature (DateTime_Now P (world s)))
    _make_pull_options (world s) = (Some pull_err, w') ->
  Head_Tip P (repo repo_info) w' = Head_Tip P (repo repo_info) (world s) ->
  exists s',
    update_pyrevit repo_info s = (inr false, s') /\
    world s' = w' /\
    In (err (Msg_failed_updating (directory repo_info) pull_err)) (records s') /\
    option_map Sha (Head_Tip P (repo repo_info) (world s')) = Some (Sha c).
Proof.
  intros Htip Hpull Hkept.
  rewrite (update_pyrevit_eq _ _ c Htip). cbv zeta. rewrite Hpull.
  eexists. split; [reflexivity |]. simpl. split; [reflexivity |]. split.
  - apply in_or_app. right. simpl. auto.
  - now rewrite Hkept, Htip.
Qed.

(** C9.  The handler ignores its three arguments and answers the pair
    written in the source; the options of every fetch and of every pull
    carry that handler, so the credentials offered for any two urls, on a
    fetch or on a pull, are the same. *)
Theorem hndlr_fixed_credentials
    (url uname : string) (types : SupportedCredentialTypes)
    (url' uname' : string) (types' : SupportedCredentialTypes) :
  hndlr url uname types =
    {| Username := "eirannejad@gmail.com"; Password := "ehsan2010" |} /\
  hndlr url uname types = hndlr url' uname' types' /\
  CredentialsProvider _make_fetch_options = Some hndlr /\
  PullOptions_FetchOptions _make_pull_options = Some _make_fetch_options.
Proof. repeat split. Qed.

(** ** Properties of the divergence check *)

(** C3.  The check returns; by then [Network.Fetch] has been called on
    every remote in turn, whatever each call answered; and the answer is
    [True] exactly when some branch of the repository, as it is after the
    fetches, is local, has a tracked branch, and is computed to be behind
    it by more than zero commits.  In particular the answer is [False]
    when every local branch is untracked or behind by zero. *)
Theorem has_pending_updates_iff_behind (repo_info : PyRevitRepoInfo) (s : State) :
  let r := repo repo_info in
  exists b s',
    has_pending_updates repo_info s = (inr b, s') /\
    world s' = fetch_all r (Network_Remotes P r (world s)) (world s) /\
    (b = true <->
     exists branch tracked hist_div,
       In branch (Branches P r (world s')) /\
       IsRemote branch = false /\
       TrackedBranch branch = Some tracked /\
       CalculateHistoryDivergence P r (Tip branch) (Tip tracked) (world s')
         = inr hist_div /\
       (BehindBy hist_div > 0)%Z) /\
    ((forall branch,
        In branch (Branches P r (world s')) -> IsRemote branch = false ->
        TrackedBranch branch = None \/
        exists tracked hist_div,
          TrackedBranch branch = Some tracked /\
          CalculateHistoryDivergence P r (Tip branch) (Tip tracked) (world s')
            = inr hist_div /\
          BehindBy hist_div = 0%Z) ->
     b = false).
Proof.
  intros r. pose proof (has_pending_updates_eq repo_info s) as E.
  cbv zeta in E. fold r in E. rewrite E. clear E.
  set (w' := fetch_all r (Network_Remotes P r (world s)) (world s)).
  eexists. eexists. split; [reflexivity |]. simpl world.
  split; [reflexivity |].
  assert (Hiff : existsb (behind r w') (Branches P r w') = true <->
     exists branch tracked hist_div,
       In branch (Branches P r w') /\
       IsRemote branch = false /\
       TrackedBranch branch = Some tracked /\
       CalculateHistoryDivergence P r (Tip branch) (Tip tracked) w'
         = inr hist_div /\
       (BehindBy hist_div > 0)%Z).
  { rewrite existsb_exists. split.
    - intros [branch [Hin Hb]]. apply behind_iff in Hb.
      destruct Hb as [Hl [tracked [hist_div [Ht [Hd Hz]]]]].
      exists branch, tracked, hist_div. auto.
    - intros [branch [tracked [hist_div [Hin [Hl [Ht [Hd Hz]]]]]]].
      exists branch. split; [exact Hin |]. apply behind_iff.
      split; [exact Hl |]. exists tracked, hist_div. auto. }
  split; [exact Hiff |].
  intros Hall.
  destruct (existsb (behind r w') (Branches P r w')) eqn:Eb; [| reflexivity].
  destruct (proj1 Hiff eq_refl)
    as [branch [tracked [hist_div [Hin [Hl [Ht [Hd Hz]]]]]]].
  destruct (Hall branch Hin Hl) as [Hnone | [t' [d' [Ht' [Hd' Hz']]]]].
  - congruence.
  - rewrite Ht in Ht'. injection Ht' as <-.
    rewrite Hd in Hd'. injection Hd' as <-. lia.
Qed.

(** C4.  Let the fetch of one remote of the repository fail.  The check
    still returns; the failure is in the log; [Network.Fetch] is called on
    each of the remaining remotes in turn, each announced in the log; and
    the answer is the comparison of all branches of the repository as the
    last fetch left it. *)
Theorem fetch_failure_does_not_abort
    (repo_info : PyRevitRepoInfo) (s : State)
    (before after : list Remote) (remote : Remote)
    (fetch_err : PyException) (w_failed : World) :
  let r := repo repo_info in
  Network_Remotes P r (world s) = before ++ remote :: after ->
  Network_Fetch P r remote _make_fetch_options (fetch_all r before (world s))
    = (Some fetch_err, w_failed) ->
  exists b s',
    has_pending_updates repo_info s = (inr b, s') /\
    In (err (Msg_failed_fetching (directory repo_info)
               (remove_newlines (str_exc fetch_err)))) (records s') /\
    world s' = fetch_all r after w_failed /\
    (forall remote', In remote' after ->
       In (dbg (Msg_fetching_remote (Name remote') (directory repo_info)))
          (records s')) /\
    b = existsb (behind r (world s')) (Branches P r (world s')).
Proof.
  intros r Hremotes Hfetch.
  pose proof (has_pending_updates_eq repo_info s) as E.
  cbv zeta in E. fold r in E. rewrite E. clear E.
  rewrite Hremotes, fetch_all_app. simpl fetch_all. fold r. rewrite Hfetch.
  simpl snd.
  eexists. eexists. split; [reflexivity |]. simpl world. simpl records.
  rewrite fetch_records_app. simpl fetch_records.
  unfold fetch_records_of. fold r. rewrite Hfetch. simpl fst. simpl snd.
  split; [| split; [reflexivity | split; [| reflexivity]]].
  - apply in_or_app. right. right. right.
    apply in_or_app. left. apply in_or_app. right.
    simpl. auto.
  - intros remote' Hin.
    apply in_or_app. right. right. right.
    apply in_or_app. left. apply in_or_app. right.
    right. right. apply (fetch_records_attempt repo_info after w_failed _ Hin).
Qed.

(** C7.  Let the comparison loop reach a local branch whose divergence
    from its tracked branch cannot be computed.  The check still returns;
    the failure is in the log; and the answer is whether one of the
    branches after it is behind: the failed branch neither stops the
    loop nor makes the answer [True]. *)
Theorem comparison_failure_skips_branch
    (repo_info : PyRevitRepoInfo) (s : State)
    (before after : list Branch) (branch tracked : Branch)
    (compare_err : PyException) :
  let r := repo repo_info in
  let w' := fetch_all r (Network_Remotes P r (world s)) (world s) in
  Branches P r w' = before ++ branch :: after ->
  existsb (behind r w') before = false ->
  IsRemote branch = false ->
  TrackedBranch branch = Some tracked ->
  CalculateHistoryDivergence P r (Tip branch) (Tip tracked) w' = inl compare_err ->
  exists s',
    has_pending_updates repo_info s = (inr (existsb (behind r w') after), s') /\
    world s' = w' /\
    In (err (Msg_can_not_compare branch r (remove_newlines (str_exc compare_err))))
       (records s').
Proof.
  intros r w' Hbranches Hbefore Hlocal Htracked Hfail.
  destruct (failed_comparison r w' branch tracked compare_err Hlocal Htracked Hfail)
    as [Hnot Hrecs].
  pose proof (has_pending_updates_eq repo_info s) as E.
  cbv zeta in E. fold r in E. fold w' in E. rewrite E. clear E.
  rewrite Hbranches.
  rewrite existsb_app, Hbefore. simpl existsb. rewrite Hnot. simpl orb.
  eexists. split; [reflexivity |]. simpl. split; [reflexivity |].
  rewrite (compare_records_app r w' before _ Hbefore).
  simpl compare_records. rewrite Hrecs, Hnot.
  apply in_or_app. right. right. right.
  apply in_or_app. right. apply in_or_app. right.
  simpl. auto.
Qed.

(** ** Further properties of discovery, update and divergence check *)

Lemma snapshot_inr (dir : path) (w : World) (h : PyRevitRepoInfo) :
  snapshot dir w = inr h ->
  exists c,
    Repository_open P dir w = inr (repo h) /\
    Head_Tip P (repo h) w = Some c /\
    last_commit_hash h = Sha c /\
    directory h = Info_WorkingDirectory P (repo h) w /\
    head_name h = Head_Name P (repo h) w.
Proof.
  unfold snapshot.
  destruct (Repository_open P dir w) as [e | r]; [discriminate |].
  destruct (Head_Tip P r w) as [c |] eqn:Etip; [| discriminate].
  intros H. injection H as <-. simpl. exists c. auto.
Qed.

(** X1.  Discovery never raises and does not touch the world: it returns
    one slot for the home repository followed by the third-party handles,
    so only the first element of the list can be [None]. *)
Theorem discovery_returns_home_slot_then_handles (s : State) :
  exists home thirdparty new,
    get_all_available_repos s = (inr (home :: map Some thirdparty), logged s new) /\
    fst (get_pyrevit_repo s) = inr home /\
    fst (get_thirdparty_pkg_repos s) = inr thirdparty.
Proof.
  rewrite get_all_available_repos_eq, get_pyrevit_repo_eq.
  destruct (snapshot (HOME_DIR P) (world s)) as [e | h];
    rewrite !get_thirdparty_pkg_repos_eq.
  - rewrite logged_logged. simpl. eauto 6.
  - simpl. eauto 6.
Qed.

Lemma opened_or_logged (w : World) (l : list (option PkgInfo)) :
  Forall (fun o => truthy o = true) l ->
  List.length (flat_map (opened_of w) l) +
  count is_error_record (flat_map (open_error_of w) l) = List.length l.
Proof.
  induction 1 as [| o l Ho _ IH]; simpl; [reflexivity |].
  rewrite length_app, count_app.
  destruct o as [p |]; [| discriminate Ho]. simpl.
  destruct (snapshot (pkg_directory P p) w); simpl; lia.
Qed.

(** X2.  Third-party discovery accounts for every located descriptor that
    passes the probe: it is either returned as a handle or logged as an
    error, so handles plus error records equal the descriptors that pass. *)
Theorem thirdparty_returned_or_logged (s : State) :
  exists repos new,
    get_thirdparty_pkg_repos s = (inr repos, logged s new) /\
    List.length repos + count is_error_record new =
    count (passes_probe (world s)) (located (world s)).
Proof.
  rewrite get_thirdparty_pkg_repos_eq.
  eexists. eexists. split; [reflexivity |].
  rewrite !count_cons. simpl.
  rewrite (opened_or_logged _ _ (valid_pkgs_truthy (world s))).
  reflexivity.
Qed.

(** X3.  A handle that discovery returns is a snapshot of the repository
    as it is then: the head has a tip, whose hash is the handle's
    [last_commit_hash].  So in a state with the same world,
    [update_pyrevit] on such a handle does not raise: it returns a
    boolean. *)
Theorem discovered_handle_updates_without_raising
    (s s' : State) (all : list (option PyRevitRepoInfo)) (h : PyRevitRepoInfo)
    (s2 : State) :
  get_all_available_repos s = (inr all, s') ->
  In (Some h) all ->
  world s2 = world s ->
  (exists c,
     Head_Tip P (repo h) (world s) = Some c /\
     last_commit_hash h = Sha c /\
     directory h = Info_WorkingDirectory P (repo h) (world s)) /\
  exists b s3, update_pyrevit h s2 = (inr b, s3).
Proof.
  intros Hrun Hin Hworld.
  assert (Hsnap : exists dir, snapshot dir (world s) = inr h).
  { rewrite get_all_available_repos_eq, get_pyrevit_repo_eq in Hrun.
    destruct (snapshot (HOME_DIR P) (world s)) as [e | home] eqn:Ehome;
      rewrite get_thirdparty_pkg_repos_eq in Hrun;
      injection Hrun as <- _; destruct Hin as [Hin | Hin].
    - discriminate Hin.
    - apply in_map_iff in Hin. destruct Hin as [h' [Heq Hin]].
      injection Heq as ->. simpl in Hin. apply opened_from in Hin.
      destruct Hin as [p [_ [_ Hopen]]]. eauto.
    - injection Hin as ->. eauto.
    - apply in_map_iff in Hin. destruct Hin as [h' [Heq Hin]].
      injection Heq as ->. apply opened_from in Hin.
      destruct Hin as [p [_ [_ Hopen]]]. eauto. }
  destruct Hsnap as [dir Hsnap]. apply snapshot_inr in Hsnap.
  destruct Hsnap as [c [_ [Htip [Hsha [Hdir _]]]]].
  split; [exists c; auto |].
  rewrite <- Hworld in Htip.
  destruct (update_pyrevit_returns h s2 c Htip) as [b [s3 [Hrun' _]]].
  eauto.
Qed.

(** X4.  With a head tip at the start, [update_pyrevit] returns a boolean
    and leaves the world as the pull left it.  The answer is [True]
    exactly when the pull did not throw and the head can be read
    afterwards; [True] adds no error record to the log and [False] adds
    exactly one. *)
Theorem update_pyrevit_outcome (repo_info : PyRevitRepoInfo) (s : State) (c : Commit) :
  Head_Tip P (repo repo_info) (world s) = Some c ->
  let pull :=
    Network_Pull P (repo repo_info)
      (_make_pull_signature (DateTime_Now P (world s)))
      _make_pull_options (world s) in
  exists b s',
    update_pyrevit repo_info s = (inr b, s') /\
    world s' = snd pull /\
    (b = true <->
     fst pull = None /\ Head_Tip P (repo repo_info) (snd pull) <> None) /\
    count is_error_record (records s') =
    count is_error_record (records s) + (if b then 0 else 1).
Proof.
  intros Htip pull. rewrite (update_pyrevit_eq _ _ c Htip). cbv zeta.
  fold pull. destruct pull as [[pull_err |] w']; simpl.
  - eexists. eexists. split; [reflexivity |]. simpl.
    split; [reflexivity |]. split.
    + split; [discriminate | intros [H _]; discriminate H].
    + rewrite count_app. f_equal.
  - destruct (Head_Tip P (repo repo_info) w') eqn:Eafter.
    + eexists. eexists. split; [reflexivity |]. simpl.
      split; [reflexivity |]. split.
      * split; [intros _; split; [reflexivity | discriminate] | reflexivity].
      * rewrite count_app. f_equal.
    + eexists. eexists. split; [reflexivity |]. simpl.
      split; [reflexivity |]. split.
      * split; [discriminate | intros [_ H]; now contradiction H].
      * rewrite count_app. f_equal.
Qed.

(** X5.  The comparison loop stops at the first branch found behind: the
    check answers [True], and the records it adds are those of the
    fetches, of the branches before that one and of that one.  The
    branches after it are not compared, so nothing of them is logged. *)
Theorem first_behind_branch_stops_comparison
    (repo_info : PyRevitRepoInfo) (s : State)
    (before after : list Branch) (branch : Branch) :
  let r := repo repo_info in
  let w := world s in
  let w' := fetch_all r (Network_Remotes P r w) w in
  Branches P r w' = before ++ branch :: after ->
  existsb (behind r w') before = false ->
  behind r w' branch = true ->
  has_pending_updates repo_info s =
  (inr true,
   {| world := w';
      records := records s ++
        dbg (Msg_fetching_updates (directory repo_info)) ::
        dbg (Msg_repo_branches (Branches P r w)) ::
        fetch_records repo_info (Network_Remotes P r w) w ++
        compare_records r w' before ++
        compare_records_of r w' branch |}).
Proof.
  intros r w w' Hbranches Hbefore Hbehind.
  pose proof (has_pending_updates_eq repo_info s) as E.
  cbv zeta in E. fold r w w' in E. rewrite E. clear E.
  rewrite Hbranches, existsb_app, Hbefore. simpl existsb. rewrite Hbehind.
  rewrite (compare_records_app r w' before _ Hbefore).
  simpl compare_records. rewrite Hbehind, app_nil_r. reflexivity.
Qed.

Lemma remove_newlines_single_line (t : string) :
  single_line (remove_newlines t) = true.
Proof.
  induction t as [| ch t IH]; simpl; [reflexivity |].
  destruct (Ascii.eqb ch "010"%char) eqn:E; simpl; [exact IH |].
  now rewrite E, IH.
Qed.

Lemma fetch_records_single_line (repo_info : PyRevitRepoInfo)
    (remotes : list Remote) (w : World) (rec : LogRecord) :
  In rec (fetch_records repo_info remotes w) -> error_text_single_line rec.
Proof.
  revert w. induction remotes as [| remote rest IH]; intros w; simpl.
  - contradiction.
  - unfold fetch_records_of.
    intros [<- | Hin]; [exact I |].
    apply in_app_or in Hin. destruct Hin as [Hin | Hin].
    + destruct (fst (Network_Fetch P (repo repo_info) remote _make_fetch_options w));
        [| contradiction].
      destruct Hin as [<- | []]. apply remove_newlines_single_line.
    + exact (IH _ Hin).
Qed.

Lemma compare_records_single_line (r : Repository) (w : World)
    (branches : list Branch) (rec : LogRecord) :
  In rec (compare_records r w branches) -> error_text_single_line rec.
Proof.
  induction branches as [| branch rest IH]; simpl.
  - contradiction.
  - intros Hin. apply in_app_or in Hin. destruct Hin as [Hin | Hin].
    + unfold compare_records_of in Hin.
      destruct (IsRemote branch); [contradiction |].
      destruct (TrackedBranch branch) as [tracked |]; [| contradiction].
      destruct Hin as [<- | Hin]; [exact I |].
      destruct (CalculateHistoryDivergence P r (Tip branch) (Tip tracked) w);
        [| contradiction].
      destruct Hin as [<- | []]. apply remove_newlines_single_line.
    + destruct (behind r w branch); [contradiction | exact (IH Hin)].
Qed.

(** X6.  Whatever text the exceptions of the backend carry, the error
    lines that the divergence check adds to the log hold it without
    newline characters. *)
Theorem has_pending_updates_error_text_single_line
    (repo_info : PyRevitRepoInfo) (s : State) :
  exists b w' new,
    has_pending_updates repo_info s =
      (inr b, {| world := w'; records := records s ++ new |}) /\
    forall rec, In rec new -> error_text_single_line rec.
Proof.
  pose proof (has_pending_updates_eq repo_info s) as E. cbv zeta in E.
  rewrite E. clear E.
  eexists. eexists. eexists. split; [reflexivity |].
  intros rec [<- | [<- | Hin]]; [exact I | exact I |].
  apply in_app_or in Hin. destruct Hin as [Hin | Hin].
  - exact (fetch_records_single_line _ _ _ _ Hin).
  - exact (compare_records_single_line _ _ _ _ Hin).
Qed.

End Facts.

(** * Verification of the config wrappers *)
Module ConfigFacts.

Import Config.

Section Facts.

Variable L : Collaborators.

Local Abbreviation State := (State L).
Local Abbreviation Parser := (Parser L).
Local Abbreviation Value := (Value L).

Notation "x <- m ;; k" := (bind m (fun x => k))
  (at level 61, m at next level, right associativity).
Notation "m ;; k" := (bind m (fun _ => k))
  (at level 61, right associativity).

Definition section_missing : CfgException :=
  AttributeError "Section does not exist in config file.".

Definition with_parser (st : State) (p : Parser) : State :=
  {| parser := p; own_attributes := own_attributes st |}.

Lemma with_parser_same (st : State) : with_parser st (parser st) = st.
Proof. now destruct st. Qed.

(** Every section name of the parser has at least one canonical part. *)
Definition parts_nonempty (names : list string) : Prop :=
  Forall (fun n => get_canonical_parts L n <> []) names.

(** ** Looking a section up *)

Lemma master_loop (name : string) (names : list string) (st : State) :
  parts_nonempty names ->
  for_in_return names
    (fun cfg_section_name =>
       master_section <- index_first (get_canonical_parts L cfg_section_name) ;;
       if String.eqb name master_section
       then ret (Some {| _section_name := master_section |})
       else ret None) st
  = (inr (if existsb (master_is (L := L) name) names
          then Some {| _section_name := name |} else None), st).
Proof.
  induction 1 as [| n names Hn _ IH]; simpl; [reflexivity |].
  unfold bind at 1, bind at 1, index_first, master_is at 1.
  destruct (get_canonical_parts L n) as [| master_section rest];
    [contradiction |].
  unfold ret at 1.
  destruct (String.eqb name master_section) eqn:E; simpl.
  - apply String.eqb_eq in E. now subst.
  - exact IH.
Qed.

(** The section is known, by its own name or through a subsection. *)
Definition known (name : string) (p : Parser) : bool :=
  parser_has_section L name p || existsb (master_is (L := L) name) (parser_sections L p).

Lemma get_section_eq (name : string) (st : State) :
  parts_nonempty (parser_sections L (parser st)) ->
  get_section name st =
  if known name (parser st)
  then (inr {| _section_name := name |}, st)
  else (inl section_missing, st).
Proof.
  intros Hparts. unfold get_section, known, bind at 1, ask at 1.
  destruct (parser_has_section L name (parser st)); simpl; [reflexivity |].
  unfold bind at 1, ask at 1. unfold bind at 1.
  rewrite (master_loop name _ st Hparts).
  now destruct (existsb (master_is (L := L) name) (parser_sections L (parser st))).
Qed.

(** A section object that [get_section] returns bears the name asked
    for, and the lookup has changed nothing. *)
Lemma get_section_inr (name : string) (st st' : State) (sec : SectionParser) :
  get_section name st = (inr sec, st') ->
  sec = {| _section_name := name |} /\ st' = st.
Proof.
  unfold get_section, bind at 1, ask at 1.
  destruct (parser_has_section L name (parser st)); simpl.
  - unfold ret. intros H. injection H as <- <-. auto.
  - unfold bind at 1, ask at 1. unfold bind at 1.
    assert (Hloop : forall names r st1,
      for_in_return names
        (fun cfg_section_name =>
           master_section <- index_first (get_canonical_parts L cfg_section_name) ;;
           if String.eqb name master_section
           then ret (Some {| _section_name := master_section |})
           else ret None) st = (r, st1) ->
      st1 = st /\
      (forall found, r = inr (Some found) -> found = {| _section_name := name |})).
    { induction names as [| n names IH]; simpl; intros r st1.
      - unfold ret. intros H. injection H as <- <-.
        split; [reflexivity | discriminate].
      - unfold bind at 1, bind at 1, index_first.
        destruct (get_canonical_parts L n) as [| master_section rest].
        + unfold raise. intros H. injection H as <- <-.
          split; [reflexivity | discriminate].
        + unfold ret at 1.
          destruct (String.eqb name master_section) eqn:E.
          * unfold ret. intros H. injection H as <- <-.
            split; [reflexivity |]. intros found Hf. injection Hf as <-.
            apply String.eqb_eq in E. now subst.
          * unfold ret at 1. apply IH. }
    destruct (for_in_return _ _ st) as [[e | [found |]] st1] eqn:Eloop;
      destruct (Hloop _ _ _ Eloop) as [-> Hfound].
    + discriminate.
    + unfold ret. intros H. injection H as <- <-.
      split; [now apply Hfound | reflexivity].
    + discriminate.
Qed.

Lemma has_section_eq (name : string) (st : State) :
  parts_nonempty (parser_sections L (parser st)) ->
  has_section name st = (inr (known name (parser st)), st).
Proof.
  intros Hparts. unfold has_section, try_except, bind.
  rewrite (get_section_eq name st Hparts).
  now destruct (known name (parser st)).
Qed.

(** X7.  [has_section] never raises and changes nothing; it answers
    [True] exactly when the parser has a section of that name or the
    first canonical part of one of its sections is that name.  In that
    case [get_section] returns the section object of the name asked for,
    otherwise it raises [AttributeError]. *)
Theorem has_section_known (name : string) (st : State) :
  parts_nonempty (parser_sections L (parser st)) ->
  has_section name st = (inr (known name (parser st)), st) /\
  get_section name st =
  if known name (parser st)
  then (inr {| _section_name := name |}, st)
  else (inl section_missing, st).
Proof.
  intros Hparts. split.
  - exact (has_section_eq name st Hparts).
  - exact (get_section_eq name st Hparts).
Qed.

(** X8.  A section that exists only through its subsections is known to
    [has_section] and [get_section], but attribute access on the config
    object raises [AttributeError] for it. *)
Theorem subsection_only_section (name : string) (st : State) :
  parts_nonempty (parser_sections L (parser st)) ->
  parser_has_section L name (parser st) = false ->
  existsb (master_is (L := L) name) (parser_sections L (parser st)) = true ->
  has_section name st = (inr true, st) /\
  get_section name st = (inr {| _section_name := name |}, st) /\
  Parser__getattr__ name st = (inl section_missing, st).
Proof.
  intros Hparts Hhas Hmaster.
  pose proof (has_section_eq name st Hparts) as H1.
  pose proof (get_section_eq name st Hparts) as H2.
  unfold known in H1, H2. rewrite Hhas, Hmaster in H1, H2. simpl in H1, H2.
  split; [exact H1 |]. split; [exact H2 |].
  unfold Parser__getattr__, bind, ask. now rewrite Hhas.
Qed.

(** ** Reading and defaulting an option *)

Lemma cleanup_value_returns (value : string) (st : State) :
  exists v, cleanup_value value st = (inr v, st).
Proof.
  unfold cleanup_value.
  set (value' := if String.eqb (str_lower L value) KEY_VALUE_TRUE then "True"
                 else if String.eqb (str_lower L value) KEY_VALUE_FALSE
                      then "False" else value).
  destruct (str_isdecimal L value').
  - unfold try_except at 1, bind, lift.
    destruct (int_of_str L value') as [e | n]; [unfold ret; eauto |].
    unfold try_except, lift.
    destruct (literal_eval_int L n); unfold ret; eauto.
  - unfold try_except, lift.
    destruct (literal_eval_str L value'); unfold ret; eauto.
Qed.

(** X9.  Once the parser holds a string for the option, reading it cannot
    fail, whatever the string: attribute access on the section returns a
    value and changes nothing, and [get_option] returns the same value,
    ignoring its default and writing nothing. *)
Theorem stored_option_always_reads
    (self : SectionParser) (op_name value : string) (default_value : Value)
    (st : State) :
  parser_get L (_section_name self) op_name (parser st) = inr value ->
  exists v,
    Section__getattr__ self op_name st = (inr v, st) /\
    get_option self op_name default_value st = (inr v, st).
Proof.
  intros Hget. destruct (cleanup_value_returns value st) as [v Hv].
  assert (E : Section__getattr__ self op_name st = (inr v, st)).
  { unfold Section__getattr__, try_except, bind, read. now rewrite Hget, Hv. }
  exists v. split; [exact E |].
  unfold get_option, try_except. now rewrite E.
Qed.

Lemma getattr_fails (self : SectionParser) (op_name : string)
    (e : CfgException) (st : State) :
  parser_get L (_section_name self) op_name (parser st) = inl e ->
  exists e', Section__getattr__ self op_name st = (inl e', st).
Proof.
  intros Hget. unfold Section__getattr__, try_except, bind, read.
  rewrite Hget. destruct e; unfold raise; eauto.
Qed.

(** X10.  When the option cannot be read and a default other than [None]
    is given, [get_option] hands [safe_strtype(default)] to [parser.set].
    If that goes through it returns the default itself; if it raises (as
    it does for a section the parser does not have) the caller gets
    [PyRevitException] and no value. *)
Theorem get_option_stores_default
    (self : SectionParser) (op_name : string) (default_value : Value)
    (e : CfgException) (st : State) :
  parser_get L (_section_name self) op_name (parser st) = inl e ->
  value_is_None L default_value = false ->
  existsb (String.eqb op_name) ["_parser"; "_section_name"] = false ->
  get_option self op_name default_value st =
  match parser_set L (_section_name self) op_name
          (safe_strtype L default_value) (parser st) with
  | (None, p') => (inr default_value, with_parser st p')
  | (Some set_err, p') =>
      (inl (PyRevitException
              ("Error setting parameter value. | " ++ str_exc set_err)%string),
       with_parser st p')
  end.
Proof.
  intros Hget Hnone Hname.
  destruct (getattr_fails self op_name e st Hget) as [e' E].
  unfold get_option, try_except at 1. rewrite E, Hnone.
  unfold Section__setattr__. rewrite Hname.
  unfold bind, try_except, call, raise, ret, with_parser. cbn.
  destruct (parser_set L (_section_name self) op_name
              (safe_strtype L default_value) (parser st)) as [[set_err |] p'];
    reflexivity.
Qed.

(** ** Subsections *)

Lemma get_subsections_eq (self : SectionParser) (st : State) :
  get_subsections self st =
  (inr (map Build_SectionParser
          (filter (below (_section_name self)) (parser_sections L (parser st)))),
   st).
Proof.
  unfold get_subsections, bind at 1, ask at 1.
  assert (Hloop : forall names acc,
    for_in names
      (fun section_name subsections =>
         if String.prefix (_section_name self ++ ".")%string section_name
         then ret (subsections ++ [{| _section_name := section_name |}])
         else ret subsections) acc st
    = (inr (acc ++ map Build_SectionParser
                     (filter (below (_section_name self)) names)), st)).
  { induction names as [| n names IH]; intros acc; simpl.
    - unfold ret. now rewrite app_nil_r.
    - unfold bind at 1, below at 1.
      destruct (String.prefix (_section_name self ++ ".") n);
        unfold ret at 1; rewrite IH; simpl; [now rewrite <- app_assoc | reflexivity]. }
  now rewrite Hloop.
Qed.

(** The section lies below [hdr] and its last canonical part is [name]. *)
Definition is_subsection (hdr name cfg_section_name : string) : bool :=
  below hdr cfg_section_name && subheader_is (L := L) name cfg_section_name.

Lemma subheader_eq (n : string) (st : State) :
  subheader {| _section_name := n |} st =
  match get_canonical_parts L n with
  | [] => (inl (IndexError "list index out of range"), st)
  | x :: rest => (inr (last rest x), st)
  end.
Proof.
  unfold subheader, header, index_last. simpl.
  now destruct (get_canonical_parts L n).
Qed.

Lemma subheader_loop (name : string) (names : list string) (st : State) :
  parts_nonempty names ->
  for_in_return (map Build_SectionParser names)
    (fun subsection =>
       sub <- subheader subsection ;;
       if String.eqb sub name then ret (Some subsection) else ret None) st
  = (inr (option_map Build_SectionParser (find (subheader_is (L := L) name) names)), st).
Proof.
  induction 1 as [| n names Hn _ IH]; simpl; [reflexivity |].
  unfold bind at 1, bind at 1. rewrite subheader_eq. unfold subheader_is at 1.
  destruct (get_canonical_parts L n) as [| x rest]; [contradiction |].
  destruct (String.eqb (last rest x) name); simpl; [reflexivity | exact IH].
Qed.

Lemma find_filter {A} (f g : A -> bool) (l : list A) :
  find g (filter f l) = find (fun x => f x && g x) l.
Proof.
  induction l as [| x l IH]; simpl; [reflexivity |].
  destruct (f x); simpl; [now rewrite IH | exact IH].
Qed.

Lemma parts_nonempty_filter (f : string -> bool) (names : list string) :
  parts_nonempty names -> parts_nonempty (filter f names).
Proof.
  unfold parts_nonempty. rewrite !Forall_forall.
  intros H n Hin. apply filter_In in Hin. now apply H.
Qed.

(** X11.  [get_subsection] returns the first section, in the order of the
    parser, whose name starts with the header followed by a dot and whose
    last canonical part is the name asked for (at any depth below the
    section) and [None] when there is none; [has_subsection] is [True]
    exactly when there is one.  Neither changes anything. *)
Theorem get_subsection_first_match
    (self : SectionParser) (name : string) (st : State) :
  parts_nonempty (parser_sections L (parser st)) ->
  let found :=
    find (is_subsection (_section_name self) name)
      (parser_sections L (parser st)) in
  get_subsection self name st = (inr (option_map Build_SectionParser found), st) /\
  has_subsection self name st =
    (inr (match found with Some _ => true | None => false end), st).
Proof.
  intros Hparts found.
  assert (E : get_subsection self name st =
              (inr (option_map Build_SectionParser found), st)).
  { unfold get_subsection, bind at 1. rewrite get_subsections_eq.
    rewrite subheader_loop by now apply parts_nonempty_filter.
    now rewrite find_filter. }
  split; [exact E |].
  unfold has_subsection, bind. rewrite E. now destruct found.
Qed.

(** ** Removing a section *)

(** The parser forgets the section it is told to remove and keeps the
    others, in order. *)
Definition remove_section_law : Prop :=
  forall (n : string) (p : Parser),
    parser_sections L (snd (parser_remove_section L n p)) =
    filter (fun s => negb (String.eqb s n)) (parser_sections L p).

Lemma remove_loop (subsections : list SectionParser) (st : State) :
  for_in subsections
    (fun cfg_subsection (_ : unit) =>
       call_value (parser_remove_section L (header cfg_subsection)) ;;
       ret tt) tt st
  = (inr tt, with_parser st (remove_all (map _section_name subsections) (parser st))).
Proof.
  revert st. induction subsections as [| sub rest IH]; intros st; simpl.
  - unfold ret. now rewrite with_parser_same.
  - unfold bind at 1, bind at 1, call_value, header.
    destruct (parser_remove_section L (_section_name sub) (parser st))
      as [b p'] eqn:E.
    unfold ret at 1. rewrite IH. simpl. unfold with_parser. simpl.
    reflexivity.
Qed.

Lemma sections_remove_all (Hlaw : remove_section_law)
    (names : list string) (p : Parser) :
  parser_sections L (remove_all names p) =
  filter (fun s => negb (existsb (String.eqb s) names)) (parser_sections L p).
Proof.
  revert p. induction names as [| n names IH]; intros p; simpl.
  - induction (parser_sections L p) as [| x l IHl]; simpl; congruence.
  - rewrite IH, Hlaw. clear IH.
    induction (parser_sections L p) as [| x l IHl]; simpl; [reflexivity |].
    destruct (String.eqb x n); simpl; [exact IHl | ].
    destruct (existsb (String.eqb x) names); simpl; congruence.
Qed.

Lemma filter_filter {A} (f g : A -> bool) (l : list A) :
  filter f (filter g l) = filter (fun x => g x && f x) l.
Proof.
  induction l as [| x l IH]; simpl; [reflexivity |].
  destruct (g x); simpl; [destruct (f x); simpl; congruence | exact IH].
Qed.

Lemma map_section_name (names : list string) :
  map _section_name (map Build_SectionParser names) = names.
Proof. induction names; simpl; congruence. Qed.

Lemma remove_section_sections
    (name : string) (st : State) (cfg_section : SectionParser) :
  remove_section_law ->
  get_section name st = (inr cfg_section, st) ->
  exists st',
    remove_section name st = (inr tt, st') /\
    own_attributes st' = own_attributes st /\
    parser_sections L (parser st') =
    filter (fun s => negb (String.eqb s name) && negb (below name s))
      (parser_sections L (parser st)).
Proof.
  intros Hlaw Hget.
  destruct (get_section_inr _ _ _ _ Hget) as [-> _].
  unfold remove_section. unfold bind at 1. rewrite Hget.
  unfold bind at 1. rewrite get_subsections_eq. simpl _section_name.
  unfold bind at 1. rewrite remove_loop, map_section_name.
  unfold bind at 1, call_value, header. simpl _section_name. simpl parser.
  destruct (parser_remove_section L name
              (remove_all (filter (below name) (parser_sections L (parser st)))
                 (parser st))) as [b p'] eqn:E.
  unfold ret. eexists. split; [reflexivity |]. simpl.
  split; [reflexivity |].
  replace p' with (snd (parser_remove_section L name
              (remove_all (filter (below name) (parser_sections L (parser st)))
                 (parser st)))) by now rewrite E.
  rewrite Hlaw, (sections_remove_all Hlaw).
  set (all := parser_sections L (parser st)).
  rewrite filter_filter. apply filter_ext_in. intros s Hs.
  assert (Hin : existsb (String.eqb s) (filter (below name) all) = below name s).
  { destruct (below name s) eqn:Eb.
    - apply existsb_exists. exists s. split.
      + apply filter_In. auto.
      + apply String.eqb_refl.
    - destruct (existsb (String.eqb s) (filter (below name) all)) eqn:Ee;
        [| reflexivity].
      apply existsb_exists in Ee. destruct Ee as [x [Hx Heq]].
      apply String.eqb_eq in Heq. subst x.
      apply filter_In in Hx. destruct Hx as [_ Hx]. congruence. }
  rewrite Hin. apply andb_comm.
Qed.

(** X12.  When the section is known, [remove_section] removes it and
    every section whose name starts with its name followed by a dot, and
    nothing else: what the parser lists afterwards are the other
    sections, in their order. *)
Theorem remove_section_removes_subtree
    (name : string) (st : State) (cfg_section : SectionParser) :
  remove_section_law ->
  get_section name st = (inr cfg_section, st) ->
  exists st',
    remove_section name st = (inr tt, st') /\
    own_attributes st' = own_attributes st /\
    parser_sections L (parser st') =
    filter (fun s => negb (String.eqb s name) && negb (below name s))
      (parser_sections L (parser st)).
Proof. exact (remove_section_sections name st cfg_section). Qed.

(** The parser has a section exactly when it lists it. *)
Definition has_section_law : Prop :=
  forall (n : string) (p : Parser),
    parser_has_section L n p = existsb (String.eqb n) (parser_sections L p).

(** A section whose first canonical part is [name] is the section [name]
    itself or lies below it. *)
Definition master_below (name : string) (names : list string) : Prop :=
  Forall (fun s => master_is (L := L) name s = true ->
                   String.eqb s name = true \/ below name s = true) names.

(** X13.  After [remove_section] the section is gone for [has_section]
    too: neither the section nor any section that would stand for it is
    left. *)
Theorem removed_section_is_unknown
    (name : string) (st st' : State) :
  remove_section_law ->
  has_section_law ->
  parts_nonempty (parser_sections L (parser st)) ->
  master_below name (parser_sections L (parser st)) ->
  remove_section name st = (inr tt, st') ->
  has_section name st' = (inr false, st').
Proof.
  intros Hrm Hhas Hparts Hbelow Hrun.
  assert (Hsections : parser_sections L (parser st') =
            filter (fun s => negb (String.eqb s name) && negb (below name s))
              (parser_sections L (parser st))).
  { unfold remove_section in Hrun. unfold bind at 1 in Hrun.
    destruct (get_section name st) as [[e | cfg_section] st1] eqn:Eget;
      [discriminate |].
    destruct (get_section_inr _ _ _ _ Eget) as [_ ->].
    destruct (remove_section_sections name st cfg_section Hrm Eget)
      as [st2 [Hrun2 [_ Hs]]].
    unfold remove_section in Hrun2. unfold bind at 1 in Hrun2.
    rewrite Eget in Hrun2. rewrite Hrun in Hrun2. injection Hrun2 as <-.
    exact Hs. }
  assert (Hparts' : parts_nonempty (parser_sections L (parser st'))).
  { rewrite Hsections. now apply parts_nonempty_filter. }
  rewrite (has_section_eq name st' Hparts').
  f_equal. f_equal. unfold known. rewrite Hhas, Hsections.
  apply orb_false_iff. split.
  - destruct (existsb (String.eqb name) _) eqn:Ee; [| reflexivity].
    apply existsb_exists in Ee. destruct Ee as [s [Hs Heq]].
    apply filter_In in Hs. destruct Hs as [_ Hs].
    apply String.eqb_eq in Heq. subst s.
    rewrite String.eqb_refl in Hs. discriminate Hs.
  - destruct (existsb (master_is name) _) eqn:Ee; [| reflexivity].
    apply existsb_exists in Ee. destruct Ee as [s [Hs Hm]].
    apply filter_In in Hs. destruct Hs as [Hin Hs].
    unfold master_below in Hbelow. rewrite Forall_forall in Hbelow.
    apply andb_true_iff in Hs. destruct Hs as [Hne Hnb].
    destruct (Hbelow s Hin Hm) as [H | H]; rewrite H in *; discriminate.
Qed.

(** ** Adding a subsection, and iterating *)

(** X14.  Let [parser.add_section] accept the canonical name of the new
    subsection and list it after the sections it had, and let that name
    start with the header and a dot and end in the name given.  Then after
    [add_subsection] the section has a subsection of that name. *)
Theorem add_subsection_then_has_subsection
    (self : SectionParser) (name : string) (st : State) (p' : Parser) :
  let full := make_canonical_name L (_section_name self) name in
  parser_add_section L full (parser st) = (None, p') ->
  parser_sections L p' = parser_sections L (parser st) ++ [full] ->
  parts_nonempty (parser_sections L p') ->
  is_subsection (_section_name self) name full = true ->
  exists st',
    add_subsection self name st = (inr tt, st') /\
    parser st' = p' /\
    has_subsection self name st' = (inr true, st').
Proof.
  intros full Hadd Hlist Hparts Hsub.
  exists (with_parser st p'). split; [| split; [reflexivity |]].
  - unfold add_subsection, call. fold full. now rewrite Hadd.
  - assert (Hparts' : parts_nonempty
                        (parser_sections L (parser (with_parser st p'))))
      by exact Hparts.
    unfold has_subsection, bind, get_subsection. unfold bind at 1.
    rewrite get_subsections_eq.
    rewrite subheader_loop by now apply parts_nonempty_filter.
    rewrite find_filter. simpl parser. rewrite Hlist.
    fold (is_subsection (_section_name self) name).
    destruct (find (is_subsection (_section_name self) name)
                (parser_sections L (parser st) ++ [full])) eqn:Ef.
    + reflexivity.
    + exfalso.
      assert (Hin : In full (parser_sections L (parser st) ++ [full])).
      { apply in_or_app. right. now left. }
      pose proof (find_none _ _ Ef full Hin) as Hnone. congruence.
Qed.

(** X15.  When the parser has every section it lists, iterating over the
    config object yields one section object for each listed section, by
    its full name and in the order of the parser, and changes nothing. *)
Theorem iter_yields_listed_sections (st : State) :
  Forall (fun n => parser_has_section L n (parser st) = true)
    (parser_sections L (parser st)) ->
  Parser__iter__ st =
  (inr (map Build_SectionParser (parser_sections L (parser st))), st).
Proof.
  intros Hall. unfold Parser__iter__, bind at 1, ask at 1.
  assert (Hloop : forall names acc,
    Forall (fun n => parser_has_section L n (parser st) = true) names ->
    for_in names
      (fun x sections => section <- get_section x ;; ret (sections ++ [section]))
      acc st
    = (inr (acc ++ map Build_SectionParser names), st)).
  { intros names acc H. revert acc.
    induction H as [| n names Hn _ IH]; intros acc; simpl.
    - unfold ret. now rewrite app_nil_r.
    - unfold bind at 1, bind at 1, get_section, bind at 1, ask at 1.
      rewrite Hn. unfold ret at 1 2. rewrite IH. now rewrite <- app_assoc. }
  exact (Hloop _ [] Hall).
Qed.

End Facts.

End ConfigFacts.

(** ** The theorems at work on the small machine *)

Import Demo.

(** The scenario of the specification: the home repository is one commit
    behind [origin], [extA] is a repository, [extB] an empty directory. *)
Example demo_discovery :
  fst (get_all_available_repos (start w0)) =
  inr [Some main_info;
       Some (Build_PyRevitRepoInfo platform "/pkgs/extA/" "master" "1111111" extA)].
Proof. reflexivity. Qed.

Example demo_pending :
  fst (has_pending_updates main_info (start w0)) = inr true.
Proof. reflexivity. Qed.

Example demo_update_then_check :
  let '(updated, s1) := update_pyrevit main_info (start w0) in
  updated = inr true /\
  fst (has_pending_updates main_info s1) = inr false.
Proof. split; reflexivity. Qed.

(** C1: a handle on a repository whose head is unborn. *)
Lemma update_pyrevit_raises_before_try_witness :
  Head_Tip platform (repo main_info) w_unborn = None /\
  update_pyrevit main_info (start w_unborn) =
  (inl (AttributeError "'NoneType' object has no attribute 'Message'"),
   logged (start w_unborn) [dbg (Msg_updating_repo (directory main_info))]).
Proof.
  split; [reflexivity |].
  apply (update_pyrevit_raises_before_try platform main_info (start w_unborn)).
  reflexivity.
Defined.

(** C2: the home directory is not a repository. *)
Lemma get_all_available_repos_keeps_none_witness :
  fst (open_repo_info (HOME_DIR platform) (start w_no_home))
    = inl not_a_repository /\
  exists thirdparty s',
    get_thirdparty_pkg_repos
      (logged (start w_no_home)
         [err (Msg_can_not_create_repo (HOME_DIR platform))])
    = (inr thirdparty, s') /\
    get_all_available_repos (start w_no_home)
    = (inr (None :: map Some thirdparty), s').
Proof.
  split; [reflexivity |].
  apply (get_all_available_repos_keeps_none platform (start w_no_home)
           not_a_repository).
  reflexivity.
Defined.

(** C4: [backup] cannot be reached, [origin] is fetched all the same and
    [master], which tracks [origin/master], is found behind. *)
Lemma fetch_failure_does_not_abort_witness :
  exists b s',
    has_pending_updates main_info (start w0) = (inr b, s') /\
    In (err (Msg_failed_fetching "/repo/main/" "failed to resolve address"))
       (records s') /\
    world s' = fetch_all (P := platform) home [origin] w0 /\
    (forall remote', In remote' [origin] ->
       In (dbg (Msg_fetching_remote (Name remote') "/repo/main/")) (records s')) /\
    b = existsb (behind (P := platform) home (world s'))
          (Branches platform home (world s')).
Proof.
  apply (fetch_failure_does_not_abort platform main_info (start w0)
           [] [origin] backup
           (DotNetException "failed to resolve address
") w0);
    reflexivity.
Defined.

(** C5: [extB] is an empty directory. *)
Lemma invalid_directory_silently_skipped_witness :
  Repository_IsValid platform extB w0 = false /\
  exists repos new,
    get_thirdparty_pkg_repos (start w0) = (inr repos, logged (start w0) new) /\
    (forall h, In h repos ->
       exists p, In (Some p) (located (P := platform) w0) /\
                 pkg_directory platform p <> extB /\
                 fst (open_repo_info (pkg_directory platform p) (start w0))
                   = inr h) /\
    (forall pkgs, In (dbg (Msg_valid_thirdparty_packages pkgs)) new ->
       count (names_dir (P := platform) extB) pkgs = 0) /\
    count (is_open_error extB) new = 0.
Proof.
  split; [reflexivity |].
  apply (invalid_directory_silently_skipped platform (start w0) extB).
  reflexivity.
Defined.

(** C6: [extC] passes the probe and cannot be opened; it is located once. *)
Lemma unopenable_candidate_logged_once_witness :
  count (names_dir (P := platform) extC) (located (P := platform) w0) = 1 /\
  exists repos new,
    get_thirdparty_pkg_repos (start w0) = (inr repos, logged (start w0) new) /\
    (forall h, In h repos ->
       exists p, In (Some p) (located (P := platform) w0) /\
                 pkg_directory platform p <> extC /\
                 fst (open_repo_info (pkg_directory platform p) (start w0))
                   = inr h) /\
    count (is_open_error extC) new
      = count (names_dir (P := platform) extC) (located (P := platform) w0).
Proof.
  split; [reflexivity |].
  apply (unopenable_candidate_logged_once platform (start w0) extC
           not_a_repository);
    reflexivity.
Defined.

(** C6, the statement with "exactly one" refuted: with the package root
    [/pkgs] configured twice, [extC] passes the probe, cannot be opened,
    is left out of the result, and third-party discovery logs two errors
    that name it. *)
Lemma unopenable_candidate_logged_twice :
  Repository_IsValid Demo3.platform extC w0 = true /\
  fst (open_repo_info (P := Demo3.platform) extC (Demo3.start w0))
    = inl not_a_repository /\
  fst (get_thirdparty_pkg_repos (Demo3.start w0)) =
    inr [Build_PyRevitRepoInfo Demo3.platform "/pkgs/extA/" "master" "1111111" extA;
         Build_PyRevitRepoInfo Demo3.platform "/pkgs/extA/" "master" "1111111" extA] /\
  count (is_open_error extC)
    (records (snd (get_thirdparty_pkg_repos (Demo3.start w0)))) = 2.
Proof. repeat split. Qed.

(** C7: [stale] tracks a branch that is gone; the loop goes on to
    [master], which is behind. *)
Lemma comparison_failure_skips_branch_witness :
  exists s',
    has_pending_updates main_info (start w0) = (inr true, s') /\
    world s' = fetched w0 /\
    In (err (Msg_can_not_compare (P := platform) (stale (fetched w0)) home
               "Value cannot be null.Parameter name: another"))
       (records s').
Proof.
  apply (comparison_failure_skips_branch platform main_info (start w0)
           [origin_master (fetched w0); feature (fetched w0)]
           [master (fetched w0)]
           (stale (fetched w0)) origin_gone
           (DotNetException "Value cannot be null.
Parameter name: another"));
    reflexivity.
Defined.

(** C8: the server accepts another password than the one sent. *)
Lemma rejected_pull_returns_false_head_unchanged_witness :
  exists s',
    update_pyrevit main_info (start w_rejecting) = (inr false, s') /\
    world s' = w_rejecting /\
    In (err (Msg_failed_updating "/repo/main/"
               (DotNetException "authentication rejected")))
       (records s') /\
    option_map Sha (Head_Tip platform home (world s')) = Some "1111111".
Proof.
  apply (rejected_pull_returns_false_head_unchanged platform main_info
           (start w_rejecting) c1
           (DotNetException "authentication rejected") w_rejecting);
    reflexivity.
Defined.

(** X3: the home handle that discovery returns in [w0]. *)
Lemma discovered_handle_updates_without_raising_witness :
  (exists c,
     Head_Tip platform (repo main_info) w0 = Some c /\
     last_commit_hash main_info = Sha c /\
     directory main_info = Info_WorkingDirectory platform (repo main_info) w0) /\
  exists b s3, update_pyrevit main_info (start w0) = (inr b, s3).
Proof.
  apply (discovered_handle_updates_without_raising platform
           (start w0)
           (snd (get_all_available_repos (start w0)))
           [Some main_info;
            Some (Build_PyRevitRepoInfo platform "/pkgs/extA/" "master" "1111111" extA)]
           main_info (start w0)).
  - reflexivity.
  - left. reflexivity.
  - reflexivity.
Defined.

(** X4: the pull goes through in [w0]. *)
Lemma update_pyrevit_outcome_witness :
  exists b s',
    update_pyrevit main_info (start w0) = (inr b, s') /\
    world s' = pulled w0 /\
    (b = true <->
     @None PyException = None /\ Head_Tip platform home (pulled w0) <> None) /\
    count is_error_record (records s') =
    count is_error_record (records (start w0)) + (if b then 0 else 1).
Proof.
  apply (update_pyrevit_outcome platform main_info (start w0) c1).
  reflexivity.
Defined.

(** X5: [master] is behind, and [stale], whose comparison would fail,
    comes after it and leaves no record. *)
Lemma first_behind_branch_stops_comparison_witness :
  has_pending_updates Demo2.main_info (Demo2.start w0) =
  (inr true,
   Build_State Demo2.platform (fetched w0)
     [dbg (Msg_fetching_updates "/repo/main/");
      dbg (Msg_repo_branches [feature w0; master w0; stale w0]);
      dbg (Msg_fetching_remote "backup" "/repo/main/");
      err (Msg_failed_fetching "/repo/main/" "failed to resolve address");
      dbg (Msg_fetching_remote "origin" "/repo/main/");
      dbg (Msg_comparing_heads "refs/heads/master" "refs/remotes/origin/master")]).
Proof.
  apply (first_behind_branch_stops_comparison Demo2.platform Demo2.main_info
           (Demo2.start w0)
           [feature (fetched w0)] [stale (fetched w0)] (master (fetched w0)));
    reflexivity.
Defined.

(** ** The config wrappers at work on the small config *)

Lemma demo_parts_nonempty (p : ConfigDemo.Sections) :
  ConfigFacts.parts_nonempty ConfigDemo.lib (ConfigDemo.names p).
Proof.
  apply Forall_forall. intros n _. simpl.
  destruct n as [| ch n]; simpl; [discriminate |].
  destruct (Ascii.eqb ch "."%char); [discriminate |].
  destruct (ConfigDemo.split_dot n); discriminate.
Qed.

Lemma demo_remove_section_law : ConfigFacts.remove_section_law ConfigDemo.lib.
Proof.
  intros n p. simpl. unfold ConfigDemo.names, ConfigDemo.drop.
  induction p as [| e p IH]; simpl; [reflexivity |].
  destruct (String.eqb (fst e) n); simpl; congruence.
Qed.

Lemma demo_has_section_law : ConfigFacts.has_section_law ConfigDemo.lib.
Proof. intros n p. reflexivity. Qed.

Example demo_get_option_on_missing_section :
  fst (Config.get_option (L := ConfigDemo.lib) {| Config._section_name := "ext" |}
         "missing" (ConfigDemo.PyInt 5) (ConfigDemo.start ConfigDemo.cfg)) =
  inl (Config.PyRevitException
         "Error setting parameter value. | No section: 'ext'").
Proof. reflexivity. Qed.

Example demo_values_read :
  fst (Config.Section__getattr__ ConfigDemo.core "verbose"
         (ConfigDemo.start ConfigDemo.cfg)) = inr (ConfigDemo.PyBool true) /\
  fst (Config.Section__getattr__ ConfigDemo.core "maxusers"
         (ConfigDemo.start ConfigDemo.cfg)) = inr (ConfigDemo.PyInt 12) /\
  fst (Config.Section__getattr__ ConfigDemo.core "name"
         (ConfigDemo.start ConfigDemo.cfg)) = inr (ConfigDemo.PyStr "pyRevit").
Proof. repeat split. Qed.

(** X7: [ext] is known through [ext.tools]. *)
Lemma has_section_known_witness :
  Config.has_section "ext" (ConfigDemo.start ConfigDemo.cfg)
    = (inr true, ConfigDemo.start ConfigDemo.cfg) /\
  Config.get_section "ext" (ConfigDemo.start ConfigDemo.cfg)
    = (inr {| Config._section_name := "ext" |}, ConfigDemo.start ConfigDemo.cfg).
Proof.
  apply (ConfigFacts.has_section_known ConfigDemo.lib "ext"
           (ConfigDemo.start ConfigDemo.cfg)).
  apply demo_parts_nonempty.
Defined.

(** X8: the same section through attribute access. *)
Lemma subsection_only_section_witness :
  Config.has_section "ext" (ConfigDemo.start ConfigDemo.cfg)
    = (inr true, ConfigDemo.start ConfigDemo.cfg) /\
  Config.get_section "ext" (ConfigDemo.start ConfigDemo.cfg)
    = (inr {| Config._section_name := "ext" |}, ConfigDemo.start ConfigDemo.cfg) /\
  Config.Parser__getattr__ "ext" (ConfigDemo.start ConfigDemo.cfg)
    = (inl (Config.AttributeError "Section does not exist in config file."),
       ConfigDemo.start ConfigDemo.cfg).
Proof.
  apply (ConfigFacts.subsection_only_section ConfigDemo.lib "ext"
           (ConfigDemo.start ConfigDemo.cfg)).
  - apply demo_parts_nonempty.
  - reflexivity.
  - reflexivity.
Defined.

(** X9: [verbose] is stored as [TRUE]. *)
Lemma stored_option_always_reads_witness :
  exists v,
    Config.Section__getattr__ ConfigDemo.core "verbose"
      (ConfigDemo.start ConfigDemo.cfg)
      = (inr v, ConfigDemo.start ConfigDemo.cfg) /\
    Config.get_option (L := ConfigDemo.lib) ConfigDemo.core "verbose" ConfigDemo.PyNone
      (ConfigDemo.start ConfigDemo.cfg)
      = (inr v, ConfigDemo.start ConfigDemo.cfg).
Proof.
  apply (ConfigFacts.stored_option_always_reads ConfigDemo.lib ConfigDemo.core
           "verbose" "TRUE" ConfigDemo.PyNone (ConfigDemo.start ConfigDemo.cfg)).
  reflexivity.
Defined.

(** X10: [core] has no option [missing]; the default [5] is stored as a
    string and returned as it was given. *)
Lemma get_option_stores_default_witness :
  Config.get_option (L := ConfigDemo.lib) ConfigDemo.core "missing" (ConfigDemo.PyInt 5)
    (ConfigDemo.start ConfigDemo.cfg) =
  (inr (ConfigDemo.PyInt 5),
   Config.Build_State ConfigDemo.lib
     [("core", [("verbose", "TRUE"); ("maxusers", "12"); ("name", "pyRevit");
                ("missing", "5")]);
      ("core.updates", [("auto", "false")]);
      ("core.updates.channels", []);
      ("ext.tools", [])] []).
Proof.
  apply (ConfigFacts.get_option_stores_default ConfigDemo.lib ConfigDemo.core
           "missing" (ConfigDemo.PyInt 5)
           (Config.NoOptionError "No option 'missing' in section: 'core'")
           (ConfigDemo.start ConfigDemo.cfg));
    reflexivity.
Defined.

(** X11: [channels] is found two levels below [core]. *)
Lemma get_subsection_first_match_witness :
  Config.get_subsection ConfigDemo.core "channels"
    (ConfigDemo.start ConfigDemo.cfg)
    = (inr (Some {| Config._section_name := "core.updates.channels" |}),
       ConfigDemo.start ConfigDemo.cfg) /\
  Config.has_subsection ConfigDemo.core "channels"
    (ConfigDemo.start ConfigDemo.cfg)
    = (inr true, ConfigDemo.start ConfigDemo.cfg).
Proof.
  apply (ConfigFacts.get_subsection_first_match ConfigDemo.lib ConfigDemo.core
           "channels" (ConfigDemo.start ConfigDemo.cfg)).
  apply demo_parts_nonempty.
Defined.

(** X12: removing [core] leaves [ext.tools]. *)
Lemma remove_section_removes_subtree_witness :
  exists st',
    Config.remove_section "core" (ConfigDemo.start ConfigDemo.cfg)
      = (inr tt, st') /\
    Config.own_attributes st' = [] /\
    Config.parser_sections ConfigDemo.lib (Config.parser st') = ["ext.tools"].
Proof.
  apply (ConfigFacts.remove_section_removes_subtree ConfigDemo.lib "core"
           (ConfigDemo.start ConfigDemo.cfg) ConfigDemo.core).
  - exact demo_remove_section_law.
  - reflexivity.
Defined.

(** X13: after that, [core] is unknown. *)
Lemma removed_section_is_unknown_witness :
  Config.has_section "core"
    (Config.Build_State ConfigDemo.lib [("ext.tools", [])] [])
  = (inr false, Config.Build_State ConfigDemo.lib [("ext.tools", [])] []).
Proof.
  apply (ConfigFacts.removed_section_is_unknown ConfigDemo.lib "core"
           (ConfigDemo.start ConfigDemo.cfg)).
  - exact demo_remove_section_law.
  - exact demo_has_section_law.
  - apply demo_parts_nonempty.
  - repeat (apply Forall_cons;
            [intros H; first [discriminate H | left; reflexivity | right; reflexivity] |]).
    apply Forall_nil.
  - reflexivity.
Defined.

(** X14: [core] gets a subsection [telemetry]. *)
Lemma add_subsection_then_has_subsection_witness :
  exists st',
    Config.add_subsection ConfigDemo.core "telemetry"
      (ConfigDemo.start ConfigDemo.cfg) = (inr tt, st') /\
    Config.parser st' = (ConfigDemo.cfg ++ [("core.telemetry", [])]) /\
    Config.has_subsection ConfigDemo.core "telemetry" st' = (inr true, st').
Proof.
  apply (ConfigFacts.add_subsection_then_has_subsection ConfigDemo.lib
           ConfigDemo.core "telemetry" (ConfigDemo.start ConfigDemo.cfg)
           (ConfigDemo.cfg ++ [("core.telemetry", [])])).
  - reflexivity.
  - reflexivity.
  - apply demo_parts_nonempty.
  - reflexivity.
Defined.

(** A dotted name does not come back: the subsection is added as
    [core.a.b], whose last canonical part is [b]. *)
Example demo_dotted_subsection_not_found :
  let '(_, st') := Config.add_subsection ConfigDemo.core "a.b"
                     (ConfigDemo.start ConfigDemo.cfg) in
  fst (Config.has_subsection ConfigDemo.core "a.b" st') = inr false.
Proof. reflexivity. Qed.

(** X15: the parser of the small config has the four sections it lists. *)
Lemma iter_yields_listed_sections_witness :
  Config.Parser__iter__ (ConfigDemo.start ConfigDemo.cfg) =
  (inr [ {| Config._section_name := "core" |};
         {| Config._section_name := "core.updates" |};
         {| Config._section_name := "core.updates.channels" |};
         {| Config._section_name := "ext.tools" |} ],
   ConfigDemo.start ConfigDemo.cfg).
Proof.
  apply (ConfigFacts.iter_yields_listed_sections ConfigDemo.lib
           (ConfigDemo.start ConfigDemo.cfg)).
  repeat (apply Forall_cons; [reflexivity |]). apply Forall_nil.
Defined.
